(** * AWS Inspector report generator: a shallow embedding

    The program under study is [aws-inspector-report.js], a Node.js script
    that shells out to the AWS CLI, collects Inspector findings and writes
    them to a CSV file.  This development embeds its pure parts (the CSV
    serializer, the profile-header scanner) as Rocq functions over JSON
    values, and its effectful parts (the calls to [child_process.exec], the
    reads of the credential files) as functions over an explicit world.

    Conventions.
    - A JavaScript string is a Rocq [string]; its characters stand for the
      bytes of the UTF-8 encoding.  The program only searches for, and
      replaces, ASCII characters, which never occur inside a multi-byte
      sequence.
    - JavaScript numbers are IEEE doubles.  They are kept abstract: the
      class [JsNumber] lists the four operations on numbers the program
      can reach.
    - An exception is a value of [exn]; a computation that may throw
      returns a [result].
    - Console output is not part of the embedding: no call to
      [console.log] can throw or change what a function returns.  What is
      embedded is the conversion to a string of a value printed inside a
      template literal, where that value need not be a string or a number:
      the conversion runs before the call and can throw. *)

From Stdlib Require Import String Ascii List Bool Arith NArith ZArith Lia.
From Stdlib Require Import DecimalString DecimalNat.
From Stdlib Require DecimalFacts.
Import ListNotations.
Open Scope string_scope.

(** ** Characters that cannot be written inside a string literal *)

Definition dquote : ascii := ascii_of_nat 34.
Definition LF : ascii := ascii_of_nat 10.
Definition CR : ascii := ascii_of_nat 13.

Definition str1 (c : ascii) : string := String c EmptyString.

(** ** Results and exceptions *)

Inductive exn : Type :=
| Error (message : string)
| TypeError.

Inductive result (E A : Type) : Type :=
| Ok (a : A)
| Throw (e : E).

Arguments Ok {E A} a.
Arguments Throw {E A} e.

Definition bind {E A B} (m : result E A) (k : A -> result E B) : result E B :=
  match m with
  | Ok a => k a
  | Throw e => Throw e
  end.

Notation "x <- m ;; k" := (bind m (fun x => k))
  (at level 61, m at next level, right associativity).

(** [throw new Error(message)] *)
Definition liftError {A} (r : result string A) : result exn A :=
  match r with
  | Ok a => Ok a
  | Throw message => Throw (Error message)
  end.

Fixpoint mapM {E A B} (f : A -> result E B) (xs : list A) : result E (list B) :=
  match xs with
  | [] => Ok []
  | x :: xs' => y <- f x ;; ys <- mapM f xs' ;; Ok (y :: ys)
  end.

(** ** String operations of the JavaScript library *)

(** Whether [s] begins with [pre] *)
Fixpoint starts_with (pre s : string) : bool :=
  match pre with
  | EmptyString => true
  | String a pre' =>
      match s with
      | EmptyString => false
      | String b s' => Ascii.eqb a b && starts_with pre' s'
      end
  end.

(** [hay.includes(needle)] *)
Fixpoint includes (hay needle : string) : bool :=
  starts_with needle hay ||
  match hay with
  | EmptyString => false
  | String _ rest => includes rest needle
  end.

(** [s.replace(/c/g, by)] for a one-character pattern [c] *)
Fixpoint replace_char (c : ascii) (by_ : string) (s : string) : string :=
  match s with
  | EmptyString => EmptyString
  | String a rest =>
      (if Ascii.eqb a c then by_ else str1 a) ++ replace_char c by_ rest
  end.

Fixpoint string_drop (n : nat) (s : string) : string :=
  match n, s with
  | O, _ => s
  | S k, EmptyString => EmptyString
  | S k, String _ rest => string_drop k rest
  end.

(** ** JavaScript numbers, abstractly *)

Class JsNumber : Type := {
  number : Type;
  (** [ToBoolean]: false exactly for [+0], [-0] and [NaN] *)
  num_truthy : number -> bool;
  (** [n > 0] *)
  num_gt0 : number -> bool;
  (** [Number::toString], as in [String(n)] *)
  num_to_string : number -> string;
  (** [StringToNumber], as in the coercion of [s > 0] *)
  str_to_num : string -> number
}.

Section Values.

Context `{JsNumber}.

(** ** JSON values as the program sees them after [JSON.parse]

    An object is its list of own properties; the first binding of a key is
    the one a property read returns. *)

#[warnings="-register-all"] Inductive value : Type :=
| VUndefined
| VNull
| VBool (b : bool)
| VNum (n : number)
| VStr (s : string)
| VArr (items : list value)
| VObj (fields : list (string * value)).

Fixpoint lookup (k : string) (fields : list (string * value)) : value :=
  match fields with
  | [] => VUndefined
  | (k', v) :: rest => if String.eqb k k' then v else lookup k rest
  end.

(** [ToBoolean] *)
Definition truthy (v : value) : bool :=
  match v with
  | VUndefined | VNull => false
  | VBool b => b
  | VNum n => num_truthy n
  | VStr s => negb (String.eqb s "")
  | VArr _ | VObj _ => true
  end.

(** [a || b] *)
Definition js_or (a b : value) : value := if truthy a then a else b.

(** [a && b], where [b] is only evaluated when [a] is truthy *)
Definition js_and (a : value) (b : result exn value) : result exn value :=
  if truthy a then b else Ok a.

(** [v.k] for the property names the program reads off a finding.  None of
    them is a member of a prototype, so on a primitive or an array the read
    is [undefined]; [length], [join], [replace] and the index [0] are
    embedded separately below. *)
Definition get (v : value) (k : string) : result exn value :=
  match v with
  | VUndefined | VNull => Throw TypeError
  | VObj fields => Ok (lookup k fields)
  | VBool _ | VNum _ | VStr _ | VArr _ => Ok VUndefined
  end.

(** Whether an object has an own property called [k], whatever it holds. *)
Fixpoint has_own (k : string) (fields : list (string * value)) : bool :=
  match fields with
  | [] => false
  | (k', _) :: rest => String.eqb k k' || has_own k rest
  end.

(** [String(v)], the conversion [ToString].

    An array prints as its elements joined by commas, where [null] and
    [undefined] elements print as nothing.

    An object is converted through its [toString] and [valueOf] methods.
    One that [JSON.parse] built inherits both from [Object.prototype] and
    prints as [[object Object]], unless it owns a property called
    [toString]: that property holds data, which cannot be called, and the
    [valueOf] that is tried next returns no primitive, or, when the object
    owns one, cannot be called either.  The conversion then throws a
    [TypeError]. *)
Fixpoint to_string (v : value) : result exn string :=
  match v with
  | VUndefined => Ok "undefined"
  | VNull => Ok "null"
  | VBool true => Ok "true"
  | VBool false => Ok "false"
  | VNum n => Ok (num_to_string n)
  | VStr s => Ok s
  | VArr items =>
      parts <- mapM (fun x => match x with
                              | VUndefined | VNull => Ok ""
                              | _ => to_string x
                              end) items ;;
      Ok (String.concat "," parts)
  | VObj fields =>
      if has_own "toString" fields then Throw TypeError
      else Ok "[object Object]"
  end.

(** The text of one element in [Array.prototype.join] *)
Definition elem_to_string (x : value) : result exn string :=
  match x with
  | VUndefined | VNull => Ok ""
  | _ => to_string x
  end.

(** [v.join(sep)]: only arrays have a [join] method; a JSON object that
    owns a property called [join] holds data there, not a function. *)
Definition join (v : value) (sep : string) : result exn string :=
  match v with
  | VArr items =>
      parts <- mapM elem_to_string items ;; Ok (String.concat sep parts)
  | _ => Throw TypeError
  end.

(** [v > 0].  An array or an object is first converted to a primitive:
    the inherited [valueOf] returns the value itself, so the conversion
    falls back on [toString], and throws where [String(v)] throws. *)
Definition gt0 (v : value) : result exn bool :=
  match v with
  | VUndefined => Ok false
  | VNull => Ok false
  | VBool b => Ok b
  | VNum n => Ok (num_gt0 n)
  | VStr s => Ok (num_gt0 (str_to_num s))
  | VArr _ | VObj _ => s <- to_string v ;; Ok (num_gt0 (str_to_num s))
  end.

(** [v.length > 0] *)
Definition length_gt0 (v : value) : result exn bool :=
  match v with
  | VUndefined | VNull => Throw TypeError
  | VStr s => Ok (negb (String.eqb s ""))
  | VArr items => Ok (0 <? List.length items)%nat
  | VObj fields => gt0 (lookup "length" fields)
  | VBool _ | VNum _ => Ok false
  end.

(** [v[0]].  Of a string it is the first character as a string of its own;
    the serializer goes on to read properties off it, and finds none. *)
Definition index0 (v : value) : result exn value :=
  match v with
  | VUndefined | VNull => Throw TypeError
  | VArr items => Ok (nth 0 items VUndefined)
  | VStr EmptyString => Ok VUndefined
  | VStr (String c _) => Ok (VStr (str1 c))
  | VObj fields => Ok (lookup "0" fields)
  | VBool _ | VNum _ => Ok VUndefined
  end.

(** [v.replace(/,/g, ';')]: only strings have a [replace] method. *)
Definition replace_commas (v : value) : result exn value :=
  match v with
  | VStr s => Ok (VStr (replace_char "," ";" s))
  | _ => Throw TypeError
  end.

(** ** convertToCsv *)

Definition headers : list value :=
  map VStr
    [ "AWS Account ID"; "Severity"; "CVE ID"; "CWEs"; "EPSS Score";
      "Exploit Available"; "Remediation";
      "Resource Type"; "Resource ID"; "Registry"; "Repository Name";
      "Image ID"; "Image OS"; "Image Tags"; "Pushed At" ].

Definition defaultRemediation : string :=
  "Upgrade your installed software packages to the proposed fixed version and release.".

Definition dash : value := VStr "-".

(** The callback of [findings.map] (lines 241-286): one finding to its
    fifteen raw cells. *)
Definition findingRow (finding : value) : result exn (list value) :=
  pvd <- get finding "packageVulnerabilityDetails" ;;
  let vulnerability := js_or pvd (VObj []) in
  res <- get finding "resources" ;;
  nonEmpty <- js_and res (b <- length_gt0 res ;; Ok (VBool b)) ;;
  resource <- (if truthy nonEmpty then index0 res else Ok (VObj [])) ;;
  vd <- get vulnerability "vulnerabilityDetails" ;;
  let vulnerabilityDetails := js_or vd (VObj []) in
  cv <- get vulnerabilityDetails "cvss" ;;
  let cvss := js_or cv (VObj []) in
  cw <- get cvss "cweIds" ;;
  let cweList := js_or cw (VArr []) in
  hasCwe <- length_gt0 cweList ;;
  cweString <- (if hasCwe
                then s <- join cweList ", " ;; Ok (VStr s)
                else Ok dash) ;;
  rem <- get finding "remediation" ;;
  txt <- js_and rem
           (rec <- get rem "recommendation" ;;
            js_and rec (get rec "text")) ;;
  let remediationText :=
    if truthy txt then txt else VStr defaultRemediation in
  det <- get resource "details" ;;
  img <- js_and det (get det "awsEcrContainerImage") ;;
  image <- (if truthy img
            then
              registry <- get img "registry" ;;
              repositoryName <- get img "repositoryName" ;;
              imageId <- get img "imageId" ;;
              imageOs <- get img "imageOs" ;;
              tags <- get img "imageTags" ;;
              joined <- join (js_or tags (VArr [])) "; " ;;
              pushedAt <- get img "pushedAt" ;;
              Ok [ js_or registry dash; js_or repositoryName dash;
                   js_or imageId dash; js_or imageOs dash;
                   js_or (VStr joined) dash; js_or pushedAt dash ]
            else Ok [dash; dash; dash; dash; dash; dash]) ;;
  awsAccountId <- get finding "awsAccountId" ;;
  severity <- get finding "severity" ;;
  vulnerabilityId <- get vulnerability "vulnerabilityId" ;;
  epss <- get vulnerabilityDetails "epss" ;;
  epssCell <- (if truthy epss
               then score <- get epss "score" ;; Ok (js_or score dash)
               else Ok dash) ;;
  exploitAvailable <- get finding "exploitAvailable" ;;
  remediation <- replace_commas remediationText ;;
  type <- get resource "type" ;;
  id <- get resource "id" ;;
  Ok ([ js_or awsAccountId dash;
        js_or severity dash;
        js_or vulnerabilityId dash;
        cweString;
        epssCell;
        js_or exploitAvailable dash;
        remediation;
        js_or type dash;
        js_or id dash ] ++ image)%list.

(** Lines 300-304: a text that holds a comma, a double quote or a line
    break goes between double quotes, with each of its double quotes
    doubled. *)
Definition quoteCell (cellStr : string) : string :=
  if includes cellStr "," || includes cellStr (str1 dquote)
     || includes cellStr (str1 LF) || includes cellStr (str1 CR)
  then str1 dquote
       ++ replace_char dquote (String dquote (str1 dquote)) cellStr
       ++ str1 dquote
  else cellStr.

(** The callback of the inner [row.map] (lines 292-305): one raw cell to
    its CSV text.  It throws where [String(cell)] does. *)
Definition escapeCell (cell : value) : result exn string :=
  match cell with
  | VUndefined | VNull => Ok ""
  | _ => cellStr <- to_string cell ;; Ok (quoteCell cellStr)
  end.

(** The callback of the outer [rows.map]: one row to its line. *)
Definition csvLine (row : list value) : result exn string :=
  cells <- mapM escapeCell row ;; Ok (String.concat "," cells).

(** [convertToCsv]; [None] is the [null] returned for no findings. *)
Definition convertToCsv (findings : list value) : result exn (option string) :=
  match findings with
  | [] => Ok None
  | _ =>
      rows <- mapM findingRow findings ;;
      lines <- mapM csvLine (headers :: rows) ;;
      Ok (Some (String.concat (str1 LF) lines))
  end.

(** The cells of the data row of one finding, as they stand in the file. *)
Definition csvCells (finding : value) : result exn (list string) :=
  row <- findingRow finding ;; mapM escapeCell row.

End Values.

(** ** The host: JSON.parse and path.join

    Both are library functions of the Node.js runtime; the program only
    relies on [JSON.parse] either returning a value or throwing a
    [SyntaxError] with some message. *)

Class JsHost `{JsNumber} : Type := {
  (** [inl v]: the parsed value; [inr m]: a [SyntaxError] with message [m] *)
  JSON_parse : string -> value + string;
  (** [path.join(a, b, c)] *)
  path_join : list string -> string
}.

(** A string literal of the source that holds double quotes is written
    here with a backquote in the place of each double quote. *)
Definition lit (s : string) : string := replace_char "`" (str1 dquote) s.

(** ** The outside world: child_process.exec

    A call to [exec] hands a command line to the shell and later calls back
    with [(error, stdout, stderr)].  The world answers each call from the
    calls made so far and the call itself, and remembers the call. *)

Record ExecCall : Type := {
  command : string;
  maxBuffer : option N
}.

Record ExecOutcome : Type := {
  (** [error.message] when [error] is not [null] *)
  exec_error : option string;
  stdout : string;
  stderr : string
}.

Record World : Type := {
  respond : list ExecCall -> ExecCall -> ExecOutcome;
  history : list ExecCall
}.

Definition exec (call : ExecCall) (w : World) : ExecOutcome * World :=
  (respond w (history w) call,
   {| respond := respond w; history := history w ++ [call] |}).

(** The command lines handed to the shell so far, oldest first. *)
Definition issued (w : World) : list string := map command (history w).

(** [s ? `--flag ${s}` : ''] *)
Definition optionArg (flag s : string) : string :=
  if String.eqb s "" then "" else flag ++ " " ++ s.

Section Commands.

Context `{JsHost}.

(** ** getAwsRegions *)

Definition defaultRegions : list string :=
  [ "us-east-1"; "us-east-2"; "us-west-1"; "us-west-2";
    "ap-south-1"; "ap-northeast-3"; "ap-northeast-2"; "ap-southeast-1";
    "ap-southeast-2"; "ap-northeast-1"; "ca-central-1"; "eu-central-1";
    "eu-west-1"; "eu-west-2"; "eu-west-3"; "eu-north-1";
    "sa-east-1" ].

Definition regionsCommand (profile : string) : string :=
  lit "aws ec2 describe-regions --query `Regions[].RegionName` --output json "
  ++ optionArg "--profile" profile.

(** The promise settles with [Ok] when [resolve] is called and with [Throw]
    when [reject] is. *)
Definition getAwsRegions (profile : string) (w : World)
  : result exn value * World :=
  let (out, w') := exec {| command := regionsCommand profile;
                           maxBuffer := None |} w in
  match exec_error out with
  | Some _ => (Ok (VArr (map VStr defaultRegions)), w')
  | None =>
      match JSON_parse (stdout out) with
      | inl regions => (Ok regions, w')
      | inr _ => (Ok (VArr (map VStr defaultRegions)), w')
      end
  end.

(** ** runAwsCommand

    Every rejection is an [Error]; the result carries its message. *)

Definition fullCommand (cmd profile region : string) : string :=
  "aws " ++ cmd ++ " " ++ optionArg "--profile" profile
  ++ " " ++ optionArg "--region" region.

Definition runAwsCommand (cmd profile region : string) (w : World)
  : result string value * World :=
  let (out, w') := exec {| command := fullCommand cmd profile region;
                           maxBuffer := Some (10 * 1024 * 1024)%N |} w in
  match exec_error out with
  | Some message => (Throw ("AWS CLI error: " ++ message), w')
  | None =>
      match JSON_parse (stdout out) with
      | inl data => (Ok data, w')
      | inr message =>
          (Throw ("Failed to parse AWS CLI output: " ++ message), w')
      end
  end.

(** ** isInspectorAvailableInRegion *)

Definition probeCommand : string := "inspector2 list-findings --max-results 1".

Definition isInspectorAvailableInRegion (region profile : string) (w : World)
  : bool * World :=
  match runAwsCommand probeCommand profile region w with
  | (Ok _, w') => (true, w')
  | (Throw message, w') =>
      (if includes message "AccessDenied"
          || includes message "UnauthorizedOperation"
       then true
       else false, w')
  end.

(** ** getInspectorFindings *)

Definition filterCommands (findingType : string)
  : result exn (string * string) :=
  if String.eqb findingType "1" then
    Ok (lit "inspector2 list-findings --filter-criteria '{`findingStatus`:[{`comparison`:`EQUALS`,`value`:`ACTIVE`}],`severity`:[{`comparison`:`EQUALS`,`value`:`CRITICAL`}],`exploitAvailable`:[{`comparison`:`EQUALS`,`value`:`YES`}]}' --max-results 100",
        lit "inspector2 list-findings --filter-criteria '{`findingStatus`:[{`comparison`:`EQUALS`,`value`:`ACTIVE`}],`severity`:[{`comparison`:`EQUALS`,`value`:`HIGH`}],`exploitAvailable`:[{`comparison`:`EQUALS`,`value`:`YES`}]}' --max-results 100")
  else if String.eqb findingType "2" then
    Ok (lit "inspector2 list-findings --filter-criteria '{`findingStatus`:[{`comparison`:`EQUALS`,`value`:`ACTIVE`}],`severity`:[{`comparison`:`EQUALS`,`value`:`CRITICAL`}]}' --max-results 100",
        lit "inspector2 list-findings --filter-criteria '{`findingStatus`:[{`comparison`:`EQUALS`,`value`:`ACTIVE`}],`severity`:[{`comparison`:`EQUALS`,`value`:`HIGH`}]}' --max-results 100")
  else if String.eqb findingType "3" then
    Ok (lit "inspector2 list-findings --filter-criteria '{`findingStatus`:[{`comparison`:`EQUALS`,`value`:`CLOSED`}],`severity`:[{`comparison`:`EQUALS`,`value`:`CRITICAL`}]}' --max-results 100",
        lit "inspector2 list-findings --filter-criteria '{`findingStatus`:[{`comparison`:`EQUALS`,`value`:`CLOSED`}],`severity`:[{`comparison`:`EQUALS`,`value`:`HIGH`}]}' --max-results 100")
  else Throw (Error "Invalid finding type").

(** A byte [10xxxxxx] continues the code point begun before it. *)
Definition is_continuation (c : ascii) : bool :=
  ((128 <=? nat_of_ascii c) && (nat_of_ascii c <? 192))%nat.

(** The code points of a string, each as a string of its own: what
    iterating a string yields. *)
Fixpoint code_points (s : string) : list string :=
  match s with
  | EmptyString => []
  | String c rest =>
      match code_points rest with
      | String d p :: ps =>
          if is_continuation d
          then String c (String d p) :: ps
          else str1 c :: String d p :: ps
      | ps => str1 c :: ps
      end
  end.

(** [[...v]]: arrays and strings are iterable, nothing else JSON holds is. *)
Definition spread (v : value) : result exn (list value) :=
  match v with
  | VArr items => Ok items
  | VStr s => Ok (map VStr (code_points s))
  | _ => Throw TypeError
  end.

(** [data && data.findings] *)
Definition findingsOf (data : value) : result exn value :=
  js_and data (get data "findings").

Definition getInspectorFindings (profile region findingType : string)
  (w : World) : result exn (list value) * World :=
  match filterCommands findingType with
  | Throw e => (Throw e, w)
  | Ok (criticalFilterCommand, highFilterCommand) =>
      match runAwsCommand criticalFilterCommand profile region w with
      | (Throw message, w1) => (Throw (Error message), w1)
      | (Ok criticalFindings, w1) =>
          match (cf <- findingsOf criticalFindings ;;
                 if truthy cf then spread cf else Ok []) with
          | Throw e => (Throw e, w1)
          | Ok allFindings =>
              match runAwsCommand highFilterCommand profile region w1 with
              | (Throw message, w2) => (Throw (Error message), w2)
              | (Ok highFindings, w2) =>
                  (hf <- findingsOf highFindings ;;
                   if truthy hf
                   then more <- spread hf ;; Ok (allFindings ++ more)%list
                   else Ok allFindings, w2)
              end
          end
      end
  end.

End Commands.

(** ** getAwsProfiles *)

(** U+2028 and U+2029 in UTF-8 *)
Definition LS : string :=
  String (ascii_of_nat 226) (String (ascii_of_nat 128) (str1 (ascii_of_nat 168))).
Definition PS : string :=
  String (ascii_of_nat 226) (String (ascii_of_nat 128) (str1 (ascii_of_nat 169))).

(** Whether [s] begins with a line terminator, the one thing [.] refuses. *)
Definition at_line_terminator (s : string) : bool :=
  starts_with (str1 LF) s || starts_with (str1 CR) s
  || starts_with LS s || starts_with PS s.

(** [(.*?)\]] tried at the head of [s]: the capture, when it matches.  The
    lazy star gives up one character at a time, so the match ends at the
    first closing bracket, and fails if a line ends before one. *)
Fixpoint lazy_to_bracket (s : string) : option string :=
  match s with
  | EmptyString => None
  | String c rest =>
      if Ascii.eqb c "]" then Some EmptyString
      else if at_line_terminator s then None
      else match lazy_to_bracket rest with
           | Some cap => Some (String c cap)
           | None => None
           end
  end.

(** [opener(.*?)\]] tried at the head of [s], for a literal [opener]. *)
Definition match_here (opener s : string) : option string :=
  if starts_with opener s
  then lazy_to_bracket (string_drop (String.length opener) s)
  else None.

(** The captures of the successive matches of the global regular expression
    [opener(.*?)\]] in [s], as the [while (regex.exec(content))] loop meets
    them.  [skip] counts the characters still to pass before [lastIndex]. *)
Fixpoint captures (opener : string) (skip : nat) (s : string) : list string :=
  match s with
  | EmptyString => []
  | String _ rest =>
      match skip with
      | S k => captures opener k rest
      | O =>
          match match_here opener s with
          | Some cap =>
              cap :: captures opener
                       (String.length opener + String.length cap) rest
          | None => captures opener 0 rest
          end
      end
  end.

(** [profiles.add(x)] on a [Set] kept in insertion order *)
Definition set_add (profiles : list string) (x : string) : list string :=
  if existsb (String.eqb x) profiles then profiles else (profiles ++ [x])%list.

Record ProcessEnv : Type := {
  HOME : option string;
  USERPROFILE : option string
}.

Record FileSystem : Type := {
  existsSync : string -> bool;
  (** the text of the file, or the message of the error thrown *)
  readFileSync : string -> result string string
}.

(** [a || b] on two environment variables; an unset one is [undefined]. *)
Definition env_or (a b : option string) : option string :=
  match a with
  | Some s => if String.eqb s "" then b else a
  | None => b
  end.

Section Profiles.

Context `{JsHost}.

Definition scanFile (fs : FileSystem) (path opener : string)
  (profiles : list string) : result exn (list string) :=
  if existsSync fs path
  then content <- liftError (readFileSync fs path) ;;
       Ok (fold_left set_add (captures opener 0 content) profiles)
  else Ok profiles.

Definition getAwsProfiles (env : ProcessEnv) (fs : FileSystem)
  : result exn (list string) :=
  match env_or (HOME env) (USERPROFILE env) with
  | None => Throw (Error "Could not determine home directory")
  | Some homeDir =>
      if String.eqb homeDir ""
      then Throw (Error "Could not determine home directory")
      else
        let credentialsPath := path_join [homeDir; ".aws"; "credentials"] in
        let configPath := path_join [homeDir; ".aws"; "config"] in
        profiles <- scanFile fs credentialsPath "[" [] ;;
        profiles <- scanFile fs configPath "[profile " profiles ;;
        Ok profiles
  end.

End Profiles.

(** ** Vocabulary of the specification *)

Section Vocabulary.

Context `{JsHost}.

(** [v?.k1?.k2...]: the value found by walking [path] down from [v], and
    [undefined] as soon as a level is missing or is not an object. *)
Fixpoint path_get (v : value) (path : list string) : value :=
  match path with
  | [] => v
  | k :: rest =>
      match v with
      | VObj fields => path_get (lookup k fields) rest
      | _ => VUndefined
      end
  end.

(** A finding has no value at [path]. *)
Definition absent (finding : value) (path : list string) : Prop :=
  path_get finding path = VUndefined.

Definition remediationPath : list string :=
  ["remediation"; "recommendation"; "text"].

(** The text the Remediation cell is made from: the one at
    [remediationPath] when there is one, the default sentence otherwise. *)
Definition textOrDefault (finding : value) : value :=
  let text := path_get finding remediationPath in
  if truthy text then text else VStr defaultRemediation.

(** The path the serializer reads the EPSS score from. *)
Definition epssPath : list string :=
  ["packageVulnerabilityDetails"; "vulnerabilityDetails"; "epss"; "score"].

(** The path the specification names for it, which runs through [cvss]. *)
Definition epssPathOfSpec : list string :=
  ["packageVulnerabilityDetails"; "vulnerabilityDetails"; "cvss"; "epss"; "score"].

(** The findings one response of the CLI contributes. *)
Definition listed (data : value) : result exn (list value) :=
  f <- findingsOf data ;; if truthy f then spread f else Ok [].

(** The message of an error carries an access-denied or unauthorized
    signal. *)
Definition accessSignal (message : string) : bool :=
  includes message "AccessDenied" || includes message "UnauthorizedOperation".

(** An environment variable that cannot name a directory. *)
Definition unsetOrEmpty (v : option string) : Prop := v = None \/ v = Some "".

(** The home directory cannot be determined. *)
Definition homeUndetermined (env : ProcessEnv) : Prop :=
  unsetOrEmpty (HOME env) /\ unsetOrEmpty (USERPROFILE env).

(** The home directory is [home]. *)
Definition homeIs (env : ProcessEnv) (home : string) : Prop :=
  env_or (HOME env) (USERPROFILE env) = Some home /\ home <> "".

Definition credentialsOf (home : string) : string :=
  path_join [home; ".aws"; "credentials"].

Definition configOf (home : string) : string :=
  path_join [home; ".aws"; "config"].

(** The text holds no opening bracket, hence no header. *)
Definition headerless (text : string) : Prop := includes text "[" = false.

(** The region query fails: the process reports an error, such as a
    non-zero exit, or its output is not JSON. *)
Definition regionQueryFails (out : ExecOutcome) : Prop :=
  exec_error out <> None \/ exists message, JSON_parse (stdout out) = inr message.

(** The filter of one scenario, as the JSON text the command carries. *)
Definition equalsFilter (field wanted : string) : string :=
  lit "`" ++ field ++ lit "`:[{`comparison`:`EQUALS`,`value`:`" ++ wanted
  ++ lit "`}]".

End Vocabulary.

(** ** A host to run examples on

    Its numbers are the integers and [NaN]; its [JSON.parse] knows the few
    documents the examples use; its [path.join] is the POSIX one on
    segments that need no normalising.  The theorems below hold for every
    host; this one only serves to evaluate the program on concrete
    inputs, none of which holds a number. *)

Module Example.

Definition int_to_string (n : option Z) : string :=
  match n with
  | None => "NaN"
  | Some z => NilZero.string_of_int (Z.to_int z)
  end.

Definition int_of_string (s : string) : option Z :=
  if String.eqb s "" then Some 0%Z
  else match NilZero.int_of_string s with
       | Some d => Some (Z.of_int d)
       | None => None
       end.

#[export] Instance numbers : JsNumber := {|
  number := option Z;
  num_truthy := fun n => match n with
                         | Some z => negb (Z.eqb z 0)
                         | None => false
                         end;
  num_gt0 := fun n => match n with
                      | Some z => Z.ltb 0 z
                      | None => false
                      end;
  num_to_string := int_to_string;
  str_to_num := int_of_string
|}.

Definition criticalOne : value :=
  VObj [("severity", VStr "CRITICAL"); ("awsAccountId", VStr "111122223333")].

Definition highOne : value :=
  VObj [("severity", VStr "HIGH"); ("awsAccountId", VStr "111122223333")].

Definition criticalText : string :=
  lit "{`findings`:[{`severity`:`CRITICAL`,`awsAccountId`:`111122223333`}]}".

Definition highText : string :=
  lit "{`findings`:[{`severity`:`HIGH`,`awsAccountId`:`111122223333`}]}".

Definition criticalData : value := VObj [("findings", VArr [criticalOne])].

Definition highData : value := VObj [("findings", VArr [highOne])].

Definition documents : list (string * value) :=
  [ ("{}", VObj []);
    (lit "{`findings`:[]}", VObj [("findings", VArr [])]);
    (criticalText, criticalData);
    (highText, highData) ].

Fixpoint parse_in (docs : list (string * value)) (s : string) : value + string :=
  match docs with
  | [] => inr "Unexpected token"
  | (text, v) :: rest => if String.eqb s text then inl v else parse_in rest s
  end.

#[export] Instance host : JsHost := {|
  JSON_parse := parse_in documents;
  path_join := String.concat "/"
|}.

(** A world whose CLI answers every command with [out]. *)
Definition always (out : ExecOutcome) : World :=
  {| respond := fun _ _ => out; history := [] |}.

(** A world whose CLI answers list-findings for CRITICAL with one finding,
    for HIGH with another, and fails on anything else. *)
Definition inspectorWorld : World :=
  {| respond := fun _ call =>
       if includes (command call) (equalsFilter "severity" "CRITICAL")
       then {| exec_error := None; stdout := criticalText; stderr := "" |}
       else if includes (command call) (equalsFilter "severity" "HIGH")
       then {| exec_error := None; stdout := highText; stderr := "" |}
       else {| exec_error := Some "Command failed";
               stdout := ""; stderr := "" |};
     history := [] |}.

(** Three worlds for the probe: one where the CLI answers, one where it is
    refused, one where the region has no endpoint. *)
Definition answeringWorld : World :=
  always {| exec_error := None; stdout := "{}"; stderr := "" |}.

Definition refusingWorld : World :=
  always {| exec_error :=
              Some "Command failed: An error occurred (AccessDeniedException) when calling the ListFindings operation";
            stdout := ""; stderr := "" |}.

Definition offlineWorld : World :=
  always {| exec_error :=
              Some "Command failed: Could not connect to the endpoint URL";
            stdout := ""; stderr := "" |}.

(** Findings for the serializer. *)
Definition bare : value := VObj [].

Definition epssOnly : value :=
  VObj [("packageVulnerabilityDetails",
         VObj [("vulnerabilityDetails",
                VObj [("epss", VObj [("score", VStr "0.97")])])])].

Definition epssUnderCvss : value :=
  VObj [("packageVulnerabilityDetails",
         VObj [("vulnerabilityDetails",
                VObj [("cvss",
                       VObj [("epss", VObj [("score", VStr "0.97")])])])])].

(** A score that is an object owning a property called [toString]. *)
Definition epssUnprintable : value :=
  VObj [("packageVulnerabilityDetails",
         VObj [("vulnerabilityDetails",
                VObj [("epss",
                       VObj [("score",
                              VObj [("toString", VStr "0.97")])])])])].

Definition withText (text : string) : value :=
  VObj [("remediation",
         VObj [("recommendation", VObj [("text", VStr text)])])].

Definition noHome : ProcessEnv := {| HOME := None; USERPROFILE := None |}.

Definition homeOfAlice : ProcessEnv :=
  {| HOME := Some "/home/alice"; USERPROFILE := None |}.

Definition emptyDisk : FileSystem :=
  {| existsSync := fun _ => false;
     readFileSync := fun _ => Throw "ENOENT: no such file or directory" |}.

Definition credentialsText : string :=
  "[dev]" ++ str1 LF ++ "aws_access_key_id = AKIAEXAMPLE" ++ str1 LF
  ++ "[prod]" ++ str1 LF ++ "aws_access_key_id = AKIAEXAMPLE2" ++ str1 LF.

Definition configText : string :=
  "[profile stage]" ++ str1 LF ++ "region = eu-west-1" ++ str1 LF.

Definition aliceDisk : FileSystem :=
  {| existsSync := fun path =>
       String.eqb path "/home/alice/.aws/credentials"
       || String.eqb path "/home/alice/.aws/config";
     readFileSync := fun path =>
       if String.eqb path "/home/alice/.aws/credentials" then Ok credentialsText
       else if String.eqb path "/home/alice/.aws/config" then Ok configText
       else Throw "ENOENT: no such file or directory" |}.

End Example.
(** * The rest of the program

    The interactive part: the prompt and its three validators, the default
    region, the region menu, the name of the report and the export step.

    The operator's input is the list of the lines typed, each one in answer
    to the question shown before it. *)

(** ** White space and parseInt *)

Definition byte (n : nat) (c : ascii) : bool := Nat.eqb (nat_of_ascii c) n.

(** TAB, LF, VT, FF, CR and the space *)
Definition is_ascii_space (c : ascii) : bool :=
  byte 9 c || byte 10 c || byte 11 c || byte 12 c || byte 13 c || byte 32 c.

(** The three-byte white space of JavaScript, in UTF-8: U+1680,
    U+2000 to U+200A, U+2028, U+2029, U+202F, U+205F, U+3000, U+FEFF. *)
Definition is_space3 (a b c : ascii) : bool :=
  (byte 225 a && byte 154 b && byte 128 c)
  || (byte 226 a && byte 128 b
      && (((128 <=? nat_of_ascii c) && (nat_of_ascii c <=? 138))%nat
          || byte 168 c || byte 169 c || byte 175 c))
  || (byte 226 a && byte 129 b && byte 159 c)
  || (byte 227 a && byte 128 b && byte 128 c)
  || (byte 239 a && byte 187 b && byte 191 c).

(** [s.trimStart()]; U+00A0 is the one two-byte white space. *)
Fixpoint trimStart (s : string) : string :=
  match s with
  | EmptyString => EmptyString
  | String a r =>
      if is_ascii_space a then trimStart r
      else
        match r with
        | EmptyString => s
        | String b r2 =>
            if byte 194 a && byte 160 b then trimStart r2
            else
              match r2 with
              | EmptyString => s
              | String c r3 => if is_space3 a b c then trimStart r3 else s
              end
        end
  end.

(** [s.trimEnd()]: what is left once the longest tail of white space is
    gone. *)
Fixpoint trimEnd (s : string) : string :=
  match s with
  | EmptyString => EmptyString
  | String a r =>
      if String.eqb (trimStart s) "" then EmptyString
      else String a (trimEnd r)
  end.

(** [s.trim()] *)
Definition trim (s : string) : string := trimEnd (trimStart s).

(** The value of a digit in a radix, 10 or 16. *)
Definition digit_value (radix : Z) (c : ascii) : option Z :=
  let n := nat_of_ascii c in
  if ((48 <=? n) && (n <=? 57))%nat then Some (Z.of_nat n - 48)%Z
  else if Z.eqb radix 16 && ((97 <=? n) && (n <=? 102))%nat
       then Some (Z.of_nat n - 87)%Z
  else if Z.eqb radix 16 && ((65 <=? n) && (n <=? 70))%nat
       then Some (Z.of_nat n - 55)%Z
  else None.

(** The number the longest run of digits at the head of [s] denotes, on top
    of [acc]; [None] stands for no digit read yet. *)
Fixpoint digits (radix : Z) (acc : option Z) (s : string) : option Z :=
  match s with
  | EmptyString => acc
  | String c rest =>
      match digit_value radix c with
      | Some d =>
          digits radix
            (Some (radix * match acc with Some a => a | None => 0 end + d)%Z)
            rest
      | None => acc
      end
  end.

(** [parseInt(input)]; [None] is [NaN].  The program compares the result
    with the length of a menu and indexes the menu with it, and a menu is
    shorter than 2^53 entries: a double and the integer it rounds agree on
    both. *)
Definition parseInt (input : string) : option Z :=
  let s := trimStart input in
  let negative := starts_with "-" s in
  let s := if starts_with "-" s || starts_with "+" s then string_drop 1 s else s in
  let hex := starts_with "0x" s || starts_with "0X" s in
  let s := if hex then string_drop 2 s else s in
  match digits (if hex then 16 else 10)%Z None s with
  | None => None
  | Some n => Some (if negative then - n else n)%Z
  end.

(** ** The limit of a command

    What the AWS CLI makes of [--max-results] is not in the program; it is
    a property of the world the program runs in. *)




(** ** promptSelection *)

(** What a validator returns: [{ valid: true, value }] or
    [{ valid: false, message }]. *)
Inductive validation (A : Type) : Type :=
| Valid (value : A)
| Invalid (message : string).

Arguments Valid {A} value.
Arguments Invalid {A} message.

(** How a prompt ends: with the validated value and the lines not read;
    with the exception of a validator, which nothing catches; or never,
    when the operator stops answering. *)
Inductive prompted (A : Type) : Type :=
| Answered (value : A) (unread : list string)
| Crashed (e : exn)
| Pending.

Arguments Answered {A} value unread.
Arguments Crashed {A} e.
Arguments Pending {A}.

Fixpoint promptSelection {O A : Type} (question : string) (options : O)
  (validator : string -> O -> result exn (validation A))
  (answers : list string) : prompted A :=
  match answers with
  | [] => Pending
  | answer :: later =>
      match validator answer options with
      | Throw e => Crashed e
      | Ok (Valid value) => Answered value later
      | Ok (Invalid _) => promptSelection question options validator later
      end
  end.

(** The menu index of an answer: [parseInt(answer) - 1], when it is a
    number within [0, size). *)
Definition menuIndex (answer : string) (size : nat) : option nat :=
  match parseInt answer with
  | None => None
  | Some n =>
      let index := (n - 1)%Z in
      if (index <? 0)%Z || (Z.of_nat size <=? index)%Z then None
      else Some (Z.to_nat index)
  end.

(** ** The validators of main *)

Definition profileValidator (answer : string) (profiles : list string)
  : result exn (validation string) :=
  match menuIndex answer (List.length profiles) with
  | None => Ok (Invalid "Invalid profile number. Please try again.")
  | Some index => Ok (Valid (nth index profiles ""))
  end.

(** The text before the first [c]: [s.split(c)[0]] *)
Fixpoint before_first (c : ascii) (s : string) : string :=
  match s with
  | EmptyString => EmptyString
  | String a rest =>
      if Ascii.eqb a c then EmptyString else String a (before_first c rest)
  end.

Definition defaultLabel : string := " (default)".

Definition findingTypeValidator (answer : string) (options : unit)
  : result exn (validation string) :=
  if String.eqb answer "1" || String.eqb answer "2" || String.eqb answer "3"
  then Ok (Valid answer)
  else Ok (Invalid "Please enter 1, 2, or 3.").

(** The file label of a finding type, for the three types the validator
    lets through. *)
Definition typeLabel (findingType : string) : option string :=
  if String.eqb findingType "1" then Some "priority_active"
  else if String.eqb findingType "2" then Some "all_active"
  else if String.eqb findingType "3" then Some "all_closed"
  else None.

(** [new Date().toISOString().replace(/[:]/g, '-').split('.')[0]], from the
    ISO text of the clock *)
Definition timestamp (iso : string) : string :=
  before_first "." (replace_char ":" "-" iso).

Definition fileName (label iso : string) : string :=
  "aws_inspector_" ++ label ++ "_findings_" ++ timestamp iso ++ ".csv".

Section Interaction.

Context `{JsHost}.

(** Whether a JSON value is the string [d]. *)
Definition is_string (d : string) (v : value) : bool :=
  match v with
  | VStr s => String.eqb s d
  | _ => false
  end.

(** [v.includes(d)]: a substring test on a string, a membership test on an
    array; nothing else has the method. *)
Definition js_includes (v : value) (d : string) : result exn bool :=
  match v with
  | VStr s => Ok (includes s d)
  | VArr items => Ok (existsb (is_string d) items)
  | _ => Throw TypeError
  end.

(** [v.split(' ')[0]]: only strings have a [split] method. *)
Definition first_word (v : value) : result exn value :=
  match v with
  | VStr s => Ok (VStr (before_first " " s))
  | _ => Throw TypeError
  end.

Definition regionValidator (answer : string) (regions : list value)
  : result exn (validation value) :=
  match menuIndex answer (List.length regions) with
  | None => Ok (Invalid "Invalid region number. Please try again.")
  | Some index =>
      let selectedRegion := nth index regions VUndefined in
      labelled <- js_includes selectedRegion defaultLabel ;;
      if labelled
      then region <- first_word selectedRegion ;; Ok (Valid region)
      else Ok (Valid selectedRegion)
  end.

(** [items.splice(items.indexOf(d), 1)], when [d] is among [items] *)
Fixpoint remove_first (d : string) (items : list value) : list value :=
  match items with
  | [] => []
  | v :: rest => if is_string d v then rest else v :: remove_first d rest
  end.

(** Lines 431-440 of main: the menu of regions.  The default region, when
    there is one and it is listed, moves to the front with its label; the
    entries are then printed, each one converted to a string by the
    template literal it stands in.
    What [getAwsRegions] resolved with need not be an array; on anything
    else either [includes], [splice] or [forEach] throws. *)
Definition regionMenu (defaultRegion : option string) (allRegions : value)
  : result exn (list value) :=
  match allRegions with
  | VArr items =>
      let menu :=
        match defaultRegion with
        | Some d =>
            if negb (String.eqb d "") && existsb (is_string d) items
            then VStr (d ++ defaultLabel) :: remove_first d items
            else items
        | None => items
        end in
      _ <- mapM to_string menu ;; Ok menu
  | _ => Throw TypeError
  end.

(** ** getDefaultRegion *)

Definition configureCommand (profile : string) : string :=
  "aws configure get region " ++ optionArg "--profile" profile.

(** The region the CLI is configured with, [null] when it fails or says
    nothing. *)
Definition configuredRegion (profile : string) (w : World)
  : option string * World :=
  let (out, w') := exec {| command := configureCommand profile;
                           maxBuffer := None |} w in
  match exec_error out with
  | Some _ => (None, w')
  | None =>
      if String.eqb (trim (stdout out)) "" then (None, w')
      else (Some (trim (stdout out)), w')
  end.

(** [AWS_REGION] is [process.env.AWS_REGION]; [None] in the result is
    [null]. *)
Definition getDefaultRegion (AWS_REGION : option string) (profile : string)
  (w : World) : option string * World :=
  match AWS_REGION with
  | Some region =>
      if String.eqb region "" then configuredRegion profile w
      else (Some region, w)
  | None => configuredRegion profile w
  end.

(** ** The last steps of main (lines 505-538): retrieval and export

    The result is what the step hands to [fs.writeFileSync]: [None] for no
    file, [Some (name, text)] for the one file.  The step only names a file
    once [getInspectorFindings] has returned, hence for a finding type that
    [typeLabel] knows. *)
Definition exportFindings (findings : list value) (findingType iso : string)
  : result exn (option (string * string)) :=
  match findings with
  | [] => Ok None
  | _ =>
      csv <- convertToCsv findings ;;
      match csv, typeLabel findingType with
      | Some text, Some label =>
          if String.eqb text "" then Ok None
          else Ok (Some (fileName label iso, text))
      | _, _ => Ok None
      end
  end.

Definition retrieveAndExport (profile region findingType iso : string)
  (w : World) : result exn (option (string * string)) * World :=
  match getInspectorFindings profile region findingType w with
  | (Throw e, w') => (Throw e, w')
  | (Ok findings, w') => (exportFindings findings findingType iso, w')
  end.

End Interaction.

(** ** Vocabulary for the rest *)

(** An answer the validator turns down. *)
Definition rejected {O A : Type}
  (validator : string -> O -> result exn (validation A)) (options : O)
  (answer : string) : Prop :=
  exists message, validator answer options = Ok (Invalid message).

(** Every character of [s] passes [test]. *)
Fixpoint all_chars (test : ascii -> bool) (s : string) : bool :=
  match s with
  | EmptyString => true
  | String c rest => test c && all_chars test rest
  end.

Definition is_digit (c : ascii) : bool :=
  ((48 <=? nat_of_ascii c) && (nat_of_ascii c <=? 57))%nat.

(** A visible ASCII character: neither a space nor a control character. *)
Definition is_solid (c : ascii) : bool :=
  ((33 <=? nat_of_ascii c) && (nat_of_ascii c <=? 126))%nat.

(** A text that cannot continue the numeral of [k]: empty, or beginning
    with something that is not a digit and, after the numeral 0, not the
    [x] of a hexadecimal prefix either. *)
Definition ends_number (k : nat) (tail : string) : bool :=
  match tail with
  | EmptyString => true
  | String c _ =>
      negb (is_digit c)
      && (negb (Nat.eqb k 0)
          || (negb (Ascii.eqb c "x") && negb (Ascii.eqb c "X")))
  end.

(** A positive integer as the menus print it. *)
Definition numeral (n : nat) : string := NilZero.string_of_uint (Nat.to_uint n).

(** The text a cell stands for, before it is quoted. *)
Definition cellText `{JsNumber} (cell : value) : result exn string :=
  match cell with
  | VUndefined | VNull => Ok ""
  | _ => to_string cell
  end.

Section MoreVocabulary.

Context `{JsNumber}.

(** The path the serializer reads the CWE identifiers from. *)
Definition cwePath : list string :=
  ["packageVulnerabilityDetails"; "vulnerabilityDetails"; "cvss"; "cweIds"].

(** The resource list of a finding is an array, or there is none. *)
Definition resourcesListed (finding : value) : Prop :=
  (exists items, path_get finding ["resources"] = VArr items)
  \/ truthy (path_get finding ["resources"]) = false.

(** The first entry of the resource list, or an empty object. *)
Definition firstResource (finding : value) : value :=
  match path_get finding ["resources"] with
  | VArr (resource :: _) => resource
  | _ => VObj []
  end.

(** The container-image details of a resource. *)
Definition imageOf (resource : value) : value :=
  path_get resource ["details"; "awsEcrContainerImage"].

(** A finding with its resource list set to [resources]. *)
Definition withResources (resources : value) (fields : list (string * value))
  : value :=
  VObj (("resources", resources) :: fields).

(** What is not a string and not an array. *)
Definition no_text (v : value) : Prop :=
  match v with
  | VStr _ | VArr _ => False
  | _ => True
  end.

(** A computation that can only throw a [TypeError]. *)
Definition only_TypeError {A : Type} (m : result exn A) : Prop :=
  forall e, m = Throw e -> e = TypeError.

End MoreVocabulary.

(** Reading a CSV text back: fields end at a comma and records at a line
    feed, except inside double quotes, where a doubled quote stands for
    one. *)
Inductive reading : Type := AtStart | InBare | InQuoted | AfterQuote.

Fixpoint readCsv (state : reading) (field : string) (record : list string)
  (text : string) : list (list string) :=
  match text with
  | EmptyString => [(record ++ [field])%list]
  | String c rest =>
      let plain :=
        if Ascii.eqb c ","
        then readCsv AtStart "" (record ++ [field])%list rest
        else if Ascii.eqb c LF
        then (record ++ [field])%list :: readCsv AtStart "" [] rest
        else readCsv InBare (field ++ str1 c) record rest in
      match state with
      | AtStart =>
          if Ascii.eqb c dquote then readCsv InQuoted field record rest
          else plain
      | InBare => plain
      | InQuoted =>
          if Ascii.eqb c dquote then readCsv AfterQuote field record rest
          else readCsv InQuoted (field ++ str1 c) record rest
      | AfterQuote =>
          if Ascii.eqb c dquote
          then readCsv InQuoted (field ++ str1 dquote) record rest
          else plain
      end
  end.

Definition parseCsv (text : string) : list (list string) :=
  readCsv AtStart "" [] text.

(** Where a field may end: at the end of the text, at a comma, at a line
    feed. *)
Inductive field_end : string -> Prop :=
| end_of_text : field_end ""
| end_at_comma (rest : string) : field_end (String "," rest)
| end_at_LF (rest : string) : field_end (String LF rest).

(** The states in which the reader takes a separator for one. *)
Definition outside_quotes (state : reading) : Prop := state <> InQuoted.

(** ** More inputs to run the program on *)

Module Cases.

Import Example.

Definition cweFinding : value :=
  VObj [ ("awsAccountId", VStr "111122223333");
         ("severity", VStr "HIGH");
         ("exploitAvailable", VStr "YES");
         ("packageVulnerabilityDetails",
          VObj [ ("vulnerabilityId", VStr "CVE-2024-0001");
                 ("vulnerabilityDetails",
                  VObj [("cvss",
                         VObj [("cweIds",
                                VArr [VStr "CWE-79"; VStr "CWE-89"])])]) ]) ].

(** An account id that is an object owning a property called [toString]. *)
Definition unprintableFinding : value :=
  VObj [ ("awsAccountId", VObj [("toString", VNum (Some 1%Z))]);
         ("severity", VStr "HIGH") ].

(** CWE identifiers of which one is such an object. *)
Definition unprintableCwe : value :=
  VObj [ ("packageVulnerabilityDetails",
          VObj [("vulnerabilityDetails",
                 VObj [("cvss",
                        VObj [("cweIds",
                               VArr [ VStr "CWE-79";
                                      VObj [("toString", VNull)] ])])])]) ].

Definition imageResource : value :=
  VObj [ ("type", VStr "AWS_ECR_CONTAINER_IMAGE");
         ("id", VStr "arn:aws:ecr:eu-west-1:111122223333:repository/web");
         ("details",
          VObj [("awsEcrContainerImage",
                 VObj [ ("registry", VStr "111122223333");
                        ("repositoryName", VStr "web");
                        ("imageTags", VArr [VStr "latest"; VStr "v2"]) ])]) ].

Definition imageFinding : value :=
  withResources (VArr [imageResource; VObj [("type", VStr "AWS_EC2_INSTANCE")]])
    [("severity", VStr "CRITICAL")].

Definition twoLineText : string :=
  lit "say `hi`, then" ++ str1 LF ++ "stop".

(** Files with settings and no profile header. *)
Definition plainDisk : FileSystem :=
  {| existsSync := fun path =>
       String.eqb path "/home/alice/.aws/credentials"
       || String.eqb path "/home/alice/.aws/config";
     readFileSync := fun path =>
       if String.eqb path "/home/alice/.aws/credentials"
       then Ok ("aws_access_key_id = AKIAEXAMPLE" ++ str1 LF)
       else if String.eqb path "/home/alice/.aws/config"
       then Ok ("[default]" ++ str1 LF ++ "region = eu-west-1" ++ str1 LF)
       else Throw "ENOENT: no such file or directory" |}.

Definition threeProfiles : list string := ["dev"; "prod"; "stage"].

Definition regionNames : list string := ["us-east-1"; "eu-west-1"; "ap-south-1"].

Definition oddMenu : list value :=
  [VStr "eu-west-1 (default)"; VStr "us-east-1"; VNull].

(** A world whose CLI is configured for eu-west-1. *)
Definition configuredWorld : World :=
  always {| exec_error := None;
            stdout := "eu-west-1" ++ str1 LF;
            stderr := "" |}.

Definition clock : string := "2025-01-22T00:18:14.123Z".

End Cases.

(** * Properties *)

(** ** Strings *)

Lemma includes_nil_char (c : ascii) : includes "" (str1 c) = false.
Proof. reflexivity. Qed.

Lemma includes_cons_char (c a : ascii) (s : string) :
  includes (String a s) (str1 c) = Ascii.eqb c a || includes s (str1 c).
Proof. cbn. now rewrite andb_true_r. Qed.

Lemma includes_replace_target (c d : ascii) (s : string) :
  c <> d -> includes (replace_char c (str1 d) s) (str1 c) = false.
Proof.
  intros Hcd. induction s as [|a s IH]; [reflexivity|].
  cbn [replace_char]. destruct (Ascii.eqb a c) eqn:Eac.
  - cbn [str1 append]. rewrite includes_cons_char, IH.
    apply Ascii.eqb_neq in Hcd. now rewrite Hcd.
  - cbn [str1 append]. rewrite includes_cons_char, IH.
    rewrite Ascii.eqb_sym. now rewrite Eac.
Qed.

Lemma includes_replace_other (c d x : ascii) (s : string) :
  x <> c -> x <> d ->
  includes (replace_char c (str1 d) s) (str1 x) = includes s (str1 x).
Proof.
  intros Hxc Hxd. induction s as [|a s IH]; [reflexivity|].
  cbn [replace_char]. destruct (Ascii.eqb a c) eqn:Eac.
  - apply Ascii.eqb_eq in Eac. subst a.
    cbn [str1 append]. rewrite !includes_cons_char, IH.
    apply Ascii.eqb_neq in Hxc, Hxd. now rewrite Hxc, Hxd.
  - cbn [str1 append]. now rewrite !includes_cons_char, IH.
Qed.

(** ** Results *)

Lemma bind_Ok {E A B} (m : result E A) (k : A -> result E B) (b : B) :
  bind m k = Ok b -> exists a, m = Ok a /\ k a = Ok b.
Proof. destruct m as [a|e]; cbn; [eauto | discriminate]. Qed.

Lemma mapM_length {E A B} (f : A -> result E B) (xs : list A) (ys : list B) :
  mapM f xs = Ok ys -> List.length ys = List.length xs.
Proof.
  revert ys. induction xs as [|x xs IH]; intros ys; cbn [mapM].
  - intros E0. now inversion E0.
  - destruct (f x) as [y|]; cbn [bind]; [|discriminate].
    destruct (mapM f xs) as [ys'|]; cbn [bind]; [|discriminate].
    intros E0. inversion E0. cbn. f_equal. now apply IH.
Qed.

Lemma mapM_nth {E A B} (f : A -> result E B) (xs : list A) (ys : list B)
  (n : nat) (dx : A) (dy : B) :
  mapM f xs = Ok ys -> n < List.length xs ->
  f (nth n xs dx) = Ok (nth n ys dy).
Proof.
  revert ys n. induction xs as [|x xs IH]; intros ys n; cbn [mapM].
  - cbn. lia.
  - destruct (f x) as [y|] eqn:Ey; cbn [bind]; [|discriminate].
    destruct (mapM f xs) as [ys'|]; cbn [bind]; [|discriminate].
    intros E0 Hn. inversion E0; subst ys.
    destruct n as [|n]; [exact Ey|]. cbn in *. apply IH; [reflexivity | lia].
Qed.

Lemma mapM_Forall {E A B} (f : A -> result E B) (Q : B -> Prop)
  (xs : list A) (ys : list B) :
  mapM f xs = Ok ys ->
  (forall x y, In x xs -> f x = Ok y -> Q y) ->
  Forall Q ys.
Proof.
  revert ys. induction xs as [|x xs IH]; intros ys; cbn [mapM].
  - intros E0 _. inversion E0. constructor.
  - destruct (f x) as [y|] eqn:Ey; cbn [bind]; [|discriminate].
    destruct (mapM f xs) as [ys'|]; cbn [bind]; [|discriminate].
    intros E0 HQ. inversion E0; subst ys. constructor.
    + apply (HQ x); [now left | assumption].
    + apply IH; [reflexivity|]. intros a b Ha. apply HQ. now right.
Qed.

(** Peel the first computation off a chain of binds known to succeed. *)
Ltac peel_named H a E :=
  match type of H with
  | bind ?m _ = Ok _ =>
      destruct m as [a|] eqn:E; [cbn [bind] in H | discriminate H]
  end.

Tactic Notation "peel" hyp(H) "as" ident(a) ident(E) := peel_named H a E.

Tactic Notation "peel" hyp(H) :=
  let a := fresh "v" in let E := fresh "E" in peel_named H a E.

(** ** Walking a finding *)

Section Walking.

Context `{JsNumber}.

Lemma path_get_falsy (v : value) (k : string) (rest : list string) :
  truthy v = false -> path_get v (k :: rest) = VUndefined.
Proof. destruct v; cbn; congruence. Qed.

Lemma path_get_undefined (path : list string) :
  path_get VUndefined path = VUndefined.
Proof. destruct path; reflexivity. Qed.

Lemma get_path_get (v x : value) (k : string) (rest : list string) :
  get v k = Ok x -> path_get v (k :: rest) = path_get x rest.
Proof.
  destruct v; cbn; intros E; inversion E; subst;
    try reflexivity; now rewrite path_get_undefined.
Qed.

Lemma path_get_or_empty (v : value) (k : string) (rest : list string) :
  path_get (js_or v (VObj [])) (k :: rest) = path_get v (k :: rest).
Proof.
  unfold js_or. destruct (truthy v) eqn:T; [reflexivity|].
  rewrite (path_get_falsy _ _ _ T). cbn. apply path_get_undefined.
Qed.

Lemma get_truthy (v : value) (k : string) :
  truthy v = true -> exists x, get v k = Ok x.
Proof. destruct v; cbn; intros; eauto; discriminate. Qed.

Lemma remediation_chain (finding rem : value) :
  get finding "remediation" = Ok rem ->
  exists txt,
    js_and rem (rec <- get rem "recommendation" ;; js_and rec (get rec "text"))
    = Ok txt
    /\ (if truthy txt then txt else VStr defaultRemediation)
       = textOrDefault finding.
Proof.
  intros Hrem. unfold textOrDefault, remediationPath.
  rewrite (get_path_get _ _ _ _ Hrem). unfold js_and.
  destruct (truthy rem) eqn:Trem.
  - destruct (get_truthy _ "recommendation" Trem) as [rec Hrec].
    rewrite Hrec. cbn [bind]. rewrite (get_path_get _ _ _ _ Hrec).
    destruct (truthy rec) eqn:Trec.
    + destruct (get_truthy _ "text" Trec) as [txt Htxt].
      exists txt. split; [assumption|].
      now rewrite (get_path_get _ _ _ _ Htxt).
    + exists rec. split; [reflexivity|].
      now rewrite Trec, (path_get_falsy _ _ _ Trec).
  - exists rem. split; [reflexivity|].
    now rewrite Trem, (path_get_falsy _ _ _ Trem).
Qed.

Lemma epss_chain (finding pvd vd epss cell : value) :
  get finding "packageVulnerabilityDetails" = Ok pvd ->
  get (js_or pvd (VObj [])) "vulnerabilityDetails" = Ok vd ->
  get (js_or vd (VObj [])) "epss" = Ok epss ->
  (if truthy epss
   then score <- get epss "score" ;; Ok (js_or score dash)
   else Ok dash) = Ok cell ->
  cell = js_or (path_get finding epssPath) dash.
Proof.
  intros Hpvd Hvd Hepss Hcell. unfold epssPath.
  rewrite (get_path_get _ _ _ _ Hpvd), <- path_get_or_empty.
  rewrite (get_path_get _ _ _ _ Hvd), <- path_get_or_empty.
  rewrite (get_path_get _ _ _ _ Hepss).
  destruct (truthy epss) eqn:T.
  - destruct (get_truthy _ "score" T) as [score Hscore].
    rewrite Hscore in Hcell. cbn [bind] in Hcell.
    rewrite (get_path_get _ _ _ _ Hscore). cbn. congruence.
  - rewrite (path_get_falsy _ _ _ T). cbn. congruence.
Qed.

End Walking.

(** ** What the serializer can throw *)

Section Throwing.

Context `{JsNumber}.

Lemma only_Ok {A : Type} (a : A) : only_TypeError (Ok a).
Proof. intros e E. discriminate E. Qed.

Lemma only_Throw {A : Type} : only_TypeError (@Throw exn A TypeError).
Proof. intros e E. now inversion E. Qed.

Lemma only_bind {A B : Type} (m : result exn A) (k : A -> result exn B) :
  only_TypeError m -> (forall a, only_TypeError (k a)) ->
  only_TypeError (bind m k).
Proof.
  intros Hm Hk e. destruct m as [a|e']; cbn.
  - apply Hk.
  - intros E. inversion E; subst. now apply Hm.
Qed.

Lemma only_if {A : Type} (c : bool) (x y : result exn A) :
  only_TypeError x -> only_TypeError y ->
  only_TypeError (if c then x else y).
Proof. now destruct c. Qed.

Lemma only_get (v : value) (k : string) : only_TypeError (get v k).
Proof. destruct v; cbn; auto using @only_Ok, @only_Throw. Qed.

Lemma only_mapM {A B : Type} (f : A -> result exn B) (xs : list A) :
  (forall x, In x xs -> only_TypeError (f x)) -> only_TypeError (mapM f xs).
Proof.
  induction xs as [|x xs IH]; intros Hf; cbn [mapM]; [apply only_Ok|].
  apply only_bind; [apply Hf; now left|]. intros y.
  apply only_bind; [|intros; apply only_Ok].
  apply IH. intros a Ha. apply Hf. now right.
Qed.

Lemma only_to_string : forall v : value, only_TypeError (to_string v).
Proof.
  fix IH 1. intros v.
  destruct v as [| |b|n|s|items|fields]; cbn [to_string];
    try apply only_Ok.
  - destruct b; apply only_Ok.
  - apply only_bind; [|intros; apply only_Ok].
    induction items as [|x items IHitems]; cbn [mapM]; [apply only_Ok|].
    apply only_bind.
    + pose proof (IH x) as Hx. destruct x; try apply only_Ok; exact Hx.
    + intros y. apply only_bind; [exact IHitems | intros; apply only_Ok].
  - destruct (has_own "toString" fields); [apply only_Throw | apply only_Ok].
Qed.

Lemma only_elem_to_string (x : value) : only_TypeError (elem_to_string x).
Proof. destruct x; try apply only_Ok; apply only_to_string. Qed.

Lemma only_gt0 (v : value) : only_TypeError (gt0 v).
Proof.
  destruct v; cbn [gt0]; try apply only_Ok;
    (apply only_bind; [apply only_to_string | intros; apply only_Ok]).
Qed.

Lemma only_length_gt0 (v : value) : only_TypeError (length_gt0 v).
Proof.
  destruct v; cbn [length_gt0]; auto using @only_Ok, @only_Throw, only_gt0.
Qed.

Lemma only_escapeCell (cell : value) : only_TypeError (escapeCell cell).
Proof.
  destruct cell; cbn [escapeCell]; try apply only_Ok;
    (apply only_bind; [apply only_to_string | intros; apply only_Ok]).
Qed.

Lemma only_index0 (v : value) : only_TypeError (index0 v).
Proof.
  destruct v as [| | | |s| |]; cbn; auto using @only_Ok, @only_Throw.
  destruct s; apply only_Ok.
Qed.

Lemma only_join (v : value) (sep : string) : only_TypeError (join v sep).
Proof.
  destruct v; cbn [join]; auto using @only_Ok, @only_Throw.
  apply only_bind; [|intros; apply only_Ok].
  apply only_mapM. intros x _. apply only_elem_to_string.
Qed.

Lemma only_replace_commas (v : value) : only_TypeError (replace_commas v).
Proof. destruct v; cbn; auto using @only_Ok, @only_Throw. Qed.

Lemma only_js_and (a : value) (b : result exn value) :
  only_TypeError b -> only_TypeError (js_and a b).
Proof. intros Hb. unfold js_and. destruct (truthy a); auto using @only_Ok. Qed.

Lemma only_findingRow (finding : value) : only_TypeError (findingRow finding).
Proof.
  unfold findingRow. cbv zeta.
  repeat first
    [ apply only_bind; [|intros ?]
    | apply only_js_and
    | apply only_if
    | apply only_get
    | apply only_length_gt0
    | apply only_index0
    | apply only_join
    | apply only_replace_commas
    | apply only_Ok ].
Qed.

Lemma mapM_Ok {A B : Type} (f : A -> result exn B) (xs : list A)
  (ys : list B) :
  mapM f xs = Ok ys -> Forall2 (fun x y => f x = Ok y) xs ys.
Proof.
  revert ys. induction xs as [|x xs IH]; intros ys E; cbn in E.
  - inversion E. constructor.
  - peel E as y Ey. peel E as ys' Eys. inversion E; subst.
    constructor; auto.
Qed.

Lemma mapM_Throw {A B : Type} (f : A -> result exn B) (xs : list A) (x : A)
  (e : exn) :
  In x xs -> f x = Throw e -> (forall a, only_TypeError (f a)) ->
  mapM f xs = Throw TypeError.
Proof.
  intros Hin Hx Honly. induction xs as [|a xs IH]; [contradiction|].
  cbn. destruct (f a) as [y|e'] eqn:Ea; cbn.
  - destruct Hin as [-> | Hin]; [congruence|]. now rewrite (IH Hin).
  - now rewrite (Honly a e' Ea).
Qed.

End Throwing.

(** ** The serializer *)

Section Serializer.

Context `{JsNumber}.

(** What [findingRow] returns, when it returns: fifteen cells, the fifth
    read off [epssPath], the seventh made from [textOrDefault]. *)
Lemma findingRow_shape (finding : value) (row : list value) :
  findingRow finding = Ok row ->
  List.length row = 15
  /\ nth 4 row VUndefined = js_or (path_get finding epssPath) dash
  /\ exists t, textOrDefault finding = VStr t
               /\ nth 6 row VUndefined = VStr (replace_char "," ";" t).
Proof.
  unfold findingRow. intros Hrow.
  do 9 peel Hrow. peel Hrow as rem Erem.
  destruct (remediation_chain finding _ Erem) as (txt & Htxt & Hdefault).
  rewrite Htxt in Hrow. cbn [bind] in Hrow. rewrite Hdefault in Hrow.
  do 2 peel Hrow. peel Hrow as image Eimage.
  do 3 peel Hrow. peel Hrow as epss Eepss. peel Hrow as epssCell Ecell.
  peel Hrow. peel Hrow as remediation Eremediation. do 2 peel Hrow.
  inversion Hrow; subst row; clear Hrow.
  assert (Himage : List.length image = 6).
  { match type of Eimage with
    | (if ?c then _ else _) = _ => destruct c
    end.
    - do 7 peel Eimage. now inversion Eimage.
    - now inversion Eimage. }
  split; [cbn; now rewrite Himage|].
  split; [cbn; eapply epss_chain; eassumption|].
  destruct (textOrDefault finding); try discriminate.
  cbn in Eremediation. inversion Eremediation; subst. eauto.
Qed.

Lemma csvCells_shape (finding : value) (cells : list string) :
  csvCells finding = Ok cells ->
  List.length cells = 15
  /\ escapeCell (js_or (path_get finding epssPath) dash) = Ok (nth 4 cells "")
  /\ exists t, textOrDefault finding = VStr t
               /\ nth 6 cells "" = quoteCell (replace_char "," ";" t).
Proof.
  unfold csvCells. intros Hcells. peel Hcells as row E.
  destruct (findingRow_shape _ _ E) as (Hlen & Hepss & t & Ht & Hrem).
  assert (Hnth : forall n, n < 15 ->
            escapeCell (nth n row VUndefined) = Ok (nth n cells "")).
  { intros n Hn. apply mapM_nth; [assumption | lia]. }
  split; [rewrite (mapM_length _ _ _ Hcells); assumption|].
  split; [rewrite <- Hepss; apply Hnth; lia|].
  exists t. split; [assumption|].
  specialize (Hnth 6). rewrite Hrem in Hnth.
  cbn [escapeCell to_string bind] in Hnth.
  symmetry. injection (Hnth ltac:(lia)) as E6. exact E6.
Qed.

(** The line of the header row. *)
Lemma csvLine_headers :
  csvLine headers
  = Ok "AWS Account ID,Severity,CVE ID,CWEs,EPSS Score,Exploit Available,Remediation,Resource Type,Resource ID,Registry,Repository Name,Image ID,Image OS,Image Tags,Pushed At".
Proof. reflexivity. Qed.

(** The file [convertToCsv] builds for one finding is the header line and
    the cells of that finding, joined by commas. *)
Lemma convertToCsv_single (finding : value) (cells : list string) :
  csvCells finding = Ok cells ->
  convertToCsv [finding]
  = Ok (Some ("AWS Account ID,Severity,CVE ID,CWEs,EPSS Score,Exploit Available,Remediation,Resource Type,Resource ID,Registry,Repository Name,Image ID,Image OS,Image Tags,Pushed At"
              ++ str1 LF ++ String.concat "," cells)).
Proof.
  unfold csvCells, convertToCsv. cbn [mapM]. intros Hcells.
  peel Hcells as row E. cbn [bind]. rewrite csvLine_headers. cbn [bind mapM].
  unfold csvLine. rewrite Hcells. reflexivity.
Qed.

End Serializer.

Section SerializerClaims.

Context `{JsNumber}.

Lemma path_get_app (v : value) (p q : list string) :
  path_get v (p ++ q) = path_get (path_get v p) q.
Proof.
  revert v. induction p as [|k p IH]; intros v; [reflexivity|].
  cbn. destruct v; try (now rewrite path_get_undefined). apply IH.
Qed.

Lemma absent_prefix (finding : value) (n : nat) (path : list string) :
  absent finding (firstn n path) -> absent finding path.
Proof.
  unfold absent. intros Habs.
  rewrite <- (firstn_skipn n path), path_get_app, Habs.
  apply path_get_undefined.
Qed.

Lemma quoteCell_plain (s : string) :
  includes s "," = false ->
  includes s (str1 dquote) = false ->
  includes s (str1 LF) = false ->
  includes s (str1 CR) = false ->
  quoteCell s = s.
Proof.
  intros Hc Hq Hn Hr. unfold quoteCell.
  now rewrite Hc, Hq, Hn, Hr.
Qed.

Lemma quoteCell_quoted (s : string) :
  includes s (str1 dquote) = true ->
  quoteCell s
  = str1 dquote ++ replace_char dquote (String dquote (str1 dquote)) s
    ++ str1 dquote.
Proof.
  intros Hq. unfold quoteCell.
  now rewrite Hq, orb_true_r.
Qed.

(** C1, amended.  A finding that is an object with none of the optional
    fields (no packageVulnerabilityDetails, no remediation recommendation
    text, no resources, no exploitAvailable, no awsAccountId, no severity)
    is serialized to fifteen cells, of which the seventh, Remediation, is
    the default sentence and each of the other fourteen is the placeholder
    "-". *)
Theorem csvCells_all_absent (fields : list (string * value)) :
  absent (VObj fields) ["packageVulnerabilityDetails"] ->
  absent (VObj fields) remediationPath ->
  absent (VObj fields) ["resources"] ->
  absent (VObj fields) ["exploitAvailable"] ->
  absent (VObj fields) ["awsAccountId"] ->
  absent (VObj fields) ["severity"] ->
  csvCells (VObj fields)
  = Ok [ "-"; "-"; "-"; "-"; "-"; "-";
         "Upgrade your installed software packages to the proposed fixed version and release.";
         "-"; "-"; "-"; "-"; "-"; "-"; "-"; "-" ].
Proof.
  unfold absent. cbn [path_get]. intros Hpvd Hrem Hres Hexp Hacc Hsev.
  destruct (remediation_chain (VObj fields) _ eq_refl)
    as (txt & Htxt & Hdefault).
  unfold textOrDefault in Hdefault. rewrite Hrem in Hdefault.
  cbn [truthy] in Hdefault.
  unfold csvCells, findingRow. cbn [get bind].
  rewrite Hpvd, Hres, Hacc, Hsev, Hexp, Htxt. cbn [bind].
  rewrite Hdefault. reflexivity.
Qed.

(** C2, amended.  The EPSS Score cell of every finding the serializer
    accepts is taken from the path packageVulnerabilityDetails /
    vulnerabilityDetails / epss / score (cvss is not on it): it is the
    escaped text of the value found there, or of "-" when that value is
    falsy; and it equals "-" whenever any level of that path is absent.
    A finding whose value there cannot be converted to a string is not
    serialized at all: the serializer throws a [TypeError]. *)
Theorem epss_cell_from_path (finding : value) :
  (forall cells,
      csvCells finding = Ok cells ->
      escapeCell (js_or (path_get finding epssPath) dash)
      = Ok (nth 4 cells "")
      /\ forall n, absent finding (firstn n epssPath) -> nth 4 cells "" = "-")
  /\ (forall e,
         escapeCell (js_or (path_get finding epssPath) dash) = Throw e ->
         csvCells finding = Throw TypeError).
Proof.
  split.
  - intros cells Hcells.
    destruct (csvCells_shape _ _ Hcells) as (_ & Hepss & _).
    split; [assumption|].
    intros n Habs. apply absent_prefix in Habs.
    rewrite Habs in Hepss.
    change (@Ok exn string "-" = Ok (nth 4 cells "")) in Hepss.
    congruence.
  - intros e Hthrow. unfold csvCells.
    destruct (findingRow finding) as [row|e'] eqn:Erow; cbn [bind].
    + destruct (findingRow_shape _ _ Erow) as (Hlen & Hepss & _).
      rewrite <- Hepss in Hthrow.
      apply (mapM_Throw escapeCell row (nth 4 row VUndefined) e);
        [|assumption|apply only_escapeCell].
      apply nth_In. lia.
    + now rewrite (only_findingRow finding e' Erow).
Qed.

(** C7.  When the remediation text of a serialized finding holds a comma
    and no double quote, carriage return or newline, the Remediation cell is
    that text with each comma replaced by a semicolon, and holds neither a
    comma nor a quote; when the text holds a double quote, the cell is the
    comma-replaced text with each double quote doubled, between two double
    quotes. *)
Theorem remediation_cell_escaping
  (finding : value) (cells : list string) (text : string) :
  csvCells finding = Ok cells ->
  path_get finding remediationPath = VStr text ->
  (includes text "," = true ->
   includes text (str1 dquote) = false ->
   includes text (str1 CR) = false ->
   includes text (str1 LF) = false ->
   nth 6 cells "" = replace_char "," ";" text
   /\ includes (nth 6 cells "") "," = false
   /\ includes (nth 6 cells "") (str1 dquote) = false)
  /\ (includes text (str1 dquote) = true ->
      nth 6 cells ""
      = str1 dquote
        ++ replace_char dquote (String dquote (str1 dquote))
             (replace_char "," ";" text)
        ++ str1 dquote).
Proof.
  intros Hcells Htext.
  destruct (csvCells_shape _ _ Hcells) as (_ & _ & t & Ht & Hrem).
  assert (Hkeep : forall c, c <> ","%char -> c <> ";"%char ->
            includes (replace_char "," ";" text) (str1 c)
            = includes text (str1 c)).
  { intros c Hc1 Hc2. now apply (includes_replace_other "," ";" c). }
  assert (Hgone : includes (replace_char "," ";" text) "," = false).
  { now apply (includes_replace_target "," ";"). }
  assert (Hsame : text <> "" -> t = text).
  { intros Hne. unfold textOrDefault in Ht. rewrite Htext in Ht.
    cbn [truthy] in Ht. destruct text; [congruence|]. cbn in Ht. congruence. }
  split.
  - intros Hcomma Hq Hcr Hlf.
    assert (t = text) as -> by (apply Hsame; intros ->; discriminate).
    assert (Hq' : includes (replace_char "," ";" text) (str1 dquote) = false)
      by now rewrite Hkeep by discriminate.
    rewrite Hrem, quoteCell_plain; try assumption.
    + now repeat split.
    + now rewrite Hkeep by discriminate.
    + now rewrite Hkeep by discriminate.
  - intros Hq.
    assert (t = text) as -> by (apply Hsame; intros ->; discriminate).
    rewrite Hrem. apply quoteCell_quoted.
    now rewrite Hkeep by discriminate.
Qed.

(** C10.  When a serialized finding has no remediation.recommendation.text,
    its Remediation cell is the default sentence "Upgrade your installed
    software packages to the proposed fixed version and release." (which the
    comma-to-semicolon substitution leaves as it is), not the placeholder
    "-". *)
Theorem remediation_cell_default (finding : value) (cells : list string) :
  csvCells finding = Ok cells ->
  absent finding remediationPath ->
  let sentence :=
    "Upgrade your installed software packages to the proposed fixed version and release." in
  nth 6 cells "" = sentence
  /\ replace_char "," ";" sentence = sentence
  /\ nth 6 cells "" <> "-".
Proof.
  intros Hcells Habs sentence.
  destruct (csvCells_shape _ _ Hcells) as (_ & _ & t & Ht & Hrem).
  unfold textOrDefault in Ht. rewrite Habs in Ht. cbn [truthy] in Ht.
  inversion Ht; subst t. rewrite Hrem.
  split; [reflexivity|]. split; [reflexivity|]. discriminate.
Qed.

End SerializerClaims.

(** ** The commands *)

Lemma starts_with_app (x a b : string) :
  starts_with x a = true -> starts_with x (a ++ b) = true.
Proof.
  revert a. induction x as [|c x IH]; intros a; [reflexivity|].
  destruct a as [|d a]; cbn; [discriminate|].
  intros Hx. apply andb_true_iff in Hx as [Hc Hx].
  now rewrite Hc, (IH _ Hx).
Qed.

Lemma includes_app_l (a b x : string) :
  includes a x = true -> includes (a ++ b) x = true.
Proof.
  induction a as [|c a IH]; cbn.
  - rewrite orb_false_r. intros Hx. destruct x; [|discriminate].
    destruct b; reflexivity.
  - intros Hx. apply orb_true_iff in Hx as [Hx|Hx].
    + apply (starts_with_app _ _ b) in Hx. cbn in Hx. now rewrite Hx.
    + rewrite (IH Hx). apply orb_true_r.
Qed.

Lemma includes_app_r (a b x : string) :
  includes b x = true -> includes (a ++ b) x = true.
Proof.
  intros Hx. induction a as [|c a IH]; [assumption|].
  cbn. rewrite IH. apply orb_true_r.
Qed.

Section CommandFacts.

Context `{JsHost}.

(** One call of [runAwsCommand] hands exactly one command line to the shell
    and leaves the rest of the world as it was. *)
Lemma runAwsCommand_world (cmd profile region : string) (w w' : World)
  (r : result string value) :
  runAwsCommand cmd profile region w = (r, w') ->
  respond w' = respond w
  /\ history w' = (history w
                   ++ [{| command := fullCommand cmd profile region;
                          maxBuffer := Some (10 * 1024 * 1024)%N |}])%list.
Proof.
  unfold runAwsCommand, exec.
  destruct (exec_error _); [|destruct (JSON_parse _)];
    intros E; inversion E; subst; cbn; auto.
Qed.

Lemma runAwsCommand_issued (cmd profile region : string) (w w' : World)
  (r : result string value) :
  runAwsCommand cmd profile region w = (r, w') ->
  issued w' = (issued w ++ [fullCommand cmd profile region])%list.
Proof.
  intros E. apply runAwsCommand_world in E as [_ E].
  unfold issued. now rewrite E, map_app.
Qed.


(** A retrieval that returns has run both commands of its scenario, the
    critical one first, and returns what the two responses list, in that
    order. *)
Lemma getInspectorFindings_Ok
  (profile region findingType : string) (w w' : World) (found : list value) :
  getInspectorFindings profile region findingType w = (Ok found, w') ->
  exists critical high c cs w1 h hs,
    filterCommands findingType = Ok (critical, high)
    /\ runAwsCommand critical profile region w = (Ok c, w1)
    /\ listed c = Ok cs
    /\ runAwsCommand high profile region w1 = (Ok h, w')
    /\ listed h = Ok hs
    /\ found = (cs ++ hs)%list.
Proof.
  unfold getInspectorFindings, listed.
  destruct (filterCommands findingType) as [[critical high]|]; [|discriminate].
  destruct (runAwsCommand critical profile region w) as [[c|] w1] eqn:Ec;
    [|discriminate].
  destruct (findingsOf c) as [cf|] eqn:Ecf; cbn [bind]; [|discriminate].
  destruct (if truthy cf then spread cf else Ok []) as [cs|] eqn:Ecs;
    [|discriminate].
  destruct (runAwsCommand high profile region w1) as [[h|] w2] eqn:Eh;
    [|discriminate].
  destruct (findingsOf h) as [hf|] eqn:Ehf; cbn [bind]; [|discriminate].
  intros E. exists critical, high, c, cs, w1, h.
  rewrite Ecf, Ehf. cbn [bind].
  destruct (truthy hf).
  - destruct (spread hf) as [hs|]; [|discriminate].
    inversion E; subst. exists hs. repeat split; auto.
  - inversion E; subst. exists []. rewrite app_nil_r. repeat split; auto.
Qed.


(** Whatever happens, a retrieval hands the shell no command, when the
    scenario is unknown, or the critical command alone, when that one fails
    or its findings cannot be listed, or the critical and then the high
    command. *)
Lemma getInspectorFindings_at_most_two
  (profile region findingType : string) (w w' : World)
  (r : result exn (list value)) :
  getInspectorFindings profile region findingType w = (r, w') ->
  (exists e, filterCommands findingType = Throw e /\ issued w' = issued w)
  \/ exists critical high,
       filterCommands findingType = Ok (critical, high)
       /\ (issued w' = (issued w ++ [fullCommand critical profile region])%list
           \/ issued w'
              = (issued w ++ [ fullCommand critical profile region;
                               fullCommand high profile region ])%list).
Proof.
  unfold getInspectorFindings.
  destruct (filterCommands findingType) as [[critical high]|e].
  - intros E. right. exists critical, high. split; [reflexivity|].
    destruct (runAwsCommand critical profile region w) as [[c|m] w1] eqn:Ec.
    + pose proof (runAwsCommand_issued _ _ _ _ _ _ Ec) as I1.
      destruct (cf <- findingsOf c ;; if truthy cf then spread cf else Ok [])
        as [cs|e].
      * destruct (runAwsCommand high profile region w1) as [[h|m] w2] eqn:Eh;
          pose proof (runAwsCommand_issued _ _ _ _ _ _ Eh) as I2;
          inversion E; subst; right; rewrite I2, I1, <- app_assoc; reflexivity.
      * inversion E; subst. now left.
    + pose proof (runAwsCommand_issued _ _ _ _ _ _ Ec) as I1.
      inversion E; subst. now left.
  - intros E. inversion E; subst. left. eauto.
Qed.


(** The prefix [runAwsCommand] puts before the message of a failed process
    neither brings a signal nor hides one. *)
Lemma accessSignal_cli_error (message : string) :
  accessSignal ("AWS CLI error: " ++ message) = accessSignal message.
Proof. reflexivity. Qed.

Lemma runAwsCommand_exec_error
  (cmd profile region message : string) (w : World) :
  exec_error (fst (exec {| command := fullCommand cmd profile region;
                           maxBuffer := Some (10 * 1024 * 1024)%N |} w))
  = Some message ->
  fst (runAwsCommand cmd profile region w)
  = Throw ("AWS CLI error: " ++ message).
Proof.
  unfold runAwsCommand, exec. cbn [fst]. now intros ->.
Qed.

(** C4.  The Availability Probe answers true when the underlying call
    succeeds, true when it fails with an error whose message carries an
    access-denied or unauthorized signal, and false for every other
    failure. *)
Theorem isInspectorAvailableInRegion_answers
  (region profile : string) (w : World) :
  (forall data w',
      runAwsCommand probeCommand profile region w = (Ok data, w') ->
      isInspectorAvailableInRegion region profile w = (true, w'))
  /\ (forall message w',
         runAwsCommand probeCommand profile region w = (Throw message, w') ->
         accessSignal message = true ->
         isInspectorAvailableInRegion region profile w = (true, w'))
  /\ (forall message w',
         runAwsCommand probeCommand profile region w = (Throw message, w') ->
         accessSignal message = false ->
         isInspectorAvailableInRegion region profile w = (false, w')).
Proof.
  unfold isInspectorAvailableInRegion, accessSignal.
  split; [|split].
  - intros data w' Hrun. now rewrite Hrun.
  - intros message w' Hrun Hsignal. now rewrite Hrun, Hsignal.
  - intros message w' Hrun Hsignal. now rewrite Hrun, Hsignal.
Qed.

(** C6.  Whenever the region query fails, by an error of the process or by
    output that does not parse, the Region Catalog resolves with the fixed
    fallback list of 17 region identifiers in their fixed order; and it
    resolves in every case, never rejecting. *)
Theorem getAwsRegions_fallback (profile : string) (w : World) :
  (regionQueryFails
     (fst (exec {| command := regionsCommand profile; maxBuffer := None |} w)) ->
   fst (getAwsRegions profile w)
   = Ok (VArr (map VStr
           [ "us-east-1"; "us-east-2"; "us-west-1"; "us-west-2";
             "ap-south-1"; "ap-northeast-3"; "ap-northeast-2";
             "ap-southeast-1"; "ap-southeast-2"; "ap-northeast-1";
             "ca-central-1"; "eu-central-1"; "eu-west-1"; "eu-west-2";
             "eu-west-3"; "eu-north-1"; "sa-east-1" ])))
  /\ List.length defaultRegions = 17
  /\ exists regions, fst (getAwsRegions profile w) = Ok regions.
Proof.
  unfold getAwsRegions, regionQueryFails, exec. cbn [fst].
  destruct (exec_error _) as [m|] eqn:Eerr.
  - split; [reflexivity|]. split; [reflexivity|]. eexists; reflexivity.
  - destruct (JSON_parse _) as [regions|m] eqn:Eparse; cbn [fst].
    + split; [intros [Hne|[m Hm]]; congruence|].
      split; [reflexivity|]. eexists; reflexivity.
    + split; [reflexivity|]. split; [reflexivity|]. eexists; reflexivity.
Qed.


End CommandFacts.

(** ** Profile discovery *)

Lemma headerless_cons (c : ascii) (text : string) :
  headerless (String c text) -> c <> "["%char /\ headerless text.
Proof.
  unfold headerless. change "[" with (str1 "[").
  rewrite includes_cons_char. intros Hno.
  apply orb_false_iff in Hno as [Hc Hrest]. split; [|assumption].
  apply Ascii.eqb_neq in Hc. congruence.
Qed.

Lemma match_here_other (opener s : string) (c : ascii) :
  c <> "["%char -> match_here (String "[" opener) (String c s) = None.
Proof.
  intros Hc. unfold match_here. cbn [starts_with].
  assert (E : Ascii.eqb "[" c = false) by (apply Ascii.eqb_neq; congruence).
  now rewrite E.
Qed.

(** The scan passes over text that holds no opening bracket. *)
Lemma captures_headerless (opener before s : string) :
  headerless before ->
  captures (String "[" opener) 0 (before ++ s)
  = captures (String "[" opener) 0 s.
Proof.
  induction before as [|c before IH]; intros Hno; [reflexivity|].
  apply headerless_cons in Hno as [Hc Hno].
  cbn [append captures]. rewrite (match_here_other _ _ _ Hc). now apply IH.
Qed.

Lemma captures_none (opener text : string) :
  headerless text -> captures (String "[" opener) 0 text = [].
Proof.
  induction text as [|c text IH]; intros Hno; [reflexivity|].
  apply headerless_cons in Hno as [Hc Hno].
  cbn [captures]. rewrite (match_here_other _ _ _ Hc). now apply IH.
Qed.

Section ProfileFacts.

Context `{JsHost}.

Lemma env_or_undetermined (env : ProcessEnv) :
  homeUndetermined env ->
  env_or (HOME env) (USERPROFILE env) = None
  \/ env_or (HOME env) (USERPROFILE env) = Some "".
Proof.
  unfold homeUndetermined, unsetOrEmpty, env_or.
  intros [[-> | ->] [-> | ->]]; cbn; auto.
Qed.

(** C5, amended.  When the home directory cannot be determined, Profile
    Discovery fails by raising the error "Could not determine home
    directory" to its caller; when it can, a missing credentials or config
    file contributes zero profiles and is not an error: the profiles are
    those of the other file, and none when both are missing. *)
Theorem getAwsProfiles_missing (env : ProcessEnv) (fs : FileSystem) :
  (homeUndetermined env ->
   getAwsProfiles env fs = Throw (Error "Could not determine home directory"))
  /\ (forall home,
         homeIs env home ->
         (existsSync fs (credentialsOf home) = false ->
          getAwsProfiles env fs
          = scanFile fs (configOf home) "[profile " [])
         /\ (existsSync fs (configOf home) = false ->
             getAwsProfiles env fs
             = scanFile fs (credentialsOf home) "[" [])
         /\ (existsSync fs (credentialsOf home) = false ->
             existsSync fs (configOf home) = false ->
             getAwsProfiles env fs = Ok [])).
Proof.
  unfold getAwsProfiles. split.
  - intros Hno. destruct (env_or_undetermined _ Hno) as [-> | ->]; reflexivity.
  - intros home [-> Hhome]. apply String.eqb_neq in Hhome. rewrite Hhome.
    unfold credentialsOf, configOf. split; [|split].
    + intros Hcred. unfold scanFile at 1. rewrite Hcred. cbn [bind].
      now destruct (scanFile _ _ _ _).
    + intros Hconf. unfold scanFile at 2. rewrite Hconf.
      now destruct (scanFile _ _ _ _).
    + intros Hcred Hconf. unfold scanFile. now rewrite Hcred, Hconf.
Qed.

(** C8.  If the credentials file holds the headers [dev] and [prod] and the
    config file holds the header [profile stage], and neither file holds
    another bracket, Profile Discovery yields dev, prod and stage, each
    once: exactly the set {dev, prod, stage}. *)
Theorem getAwsProfiles_dev_prod_stage
  (env : ProcessEnv) (fs : FileSystem) (home : string)
  (c0 c1 c2 g0 g1 : string) :
  homeIs env home ->
  existsSync fs (credentialsOf home) = true ->
  readFileSync fs (credentialsOf home)
  = Ok (c0 ++ "[dev]" ++ c1 ++ "[prod]" ++ c2) ->
  existsSync fs (configOf home) = true ->
  readFileSync fs (configOf home) = Ok (g0 ++ "[profile stage]" ++ g1) ->
  headerless c0 -> headerless c1 -> headerless c2 ->
  headerless g0 -> headerless g1 ->
  getAwsProfiles env fs = Ok ["dev"; "prod"; "stage"]
  /\ NoDup ["dev"; "prod"; "stage"].
Proof.
  intros [Henv Hhome] Hcred Hcredtext Hconf Hconftext Hc0 Hc1 Hc2 Hg0 Hg1.
  split.
  - unfold getAwsProfiles. rewrite Henv.
    apply String.eqb_neq in Hhome. rewrite Hhome.
    unfold scanFile. fold (credentialsOf home). fold (configOf home).
    rewrite Hcred, Hcredtext, Hconf, Hconftext. cbn [liftError bind].
    rewrite (captures_headerless _ _ _ Hc0). cbn.
    rewrite (captures_headerless _ _ _ Hc1). cbn.
    rewrite (captures_none _ _ Hc2).
    rewrite (captures_headerless _ _ _ Hg0). cbn.
    rewrite (captures_none _ _ Hg1). reflexivity.
  - repeat constructor; cbn; intuition discriminate.
Qed.

End ProfileFacts.

(** ** The program on concrete inputs *)

Import Example.

(** C1 as stated fails: the finding [{}] has none of the optional fields,
    and its seventh cell is the default remediation sentence, not "-". *)
Lemma all_cells_dash_refuted :
  absent bare ["packageVulnerabilityDetails"]
  /\ absent bare remediationPath
  /\ absent bare ["resources"]
  /\ absent bare ["exploitAvailable"]
  /\ absent bare ["awsAccountId"]
  /\ absent bare ["severity"]
  /\ exists cells,
       csvCells bare = Ok cells
       /\ List.length cells = 15
       /\ nth 6 cells ""
          = "Upgrade your installed software packages to the proposed fixed version and release."
       /\ ~ Forall (fun cell => cell = "-") cells.
Proof.
  do 6 (split; [reflexivity|]).
  eexists. split; [reflexivity|]. split; [reflexivity|].
  split; [reflexivity|].
  intros Hall. rewrite Forall_forall in Hall.
  specialize (Hall defaultRemediation). cbn in Hall.
  assert (E : defaultRemediation = "-") by (apply Hall; tauto).
  discriminate E.
Qed.

Lemma csvCells_all_absent_witness :
  csvCells bare
  = Ok [ "-"; "-"; "-"; "-"; "-"; "-";
         "Upgrade your installed software packages to the proposed fixed version and release.";
         "-"; "-"; "-"; "-"; "-"; "-"; "-"; "-" ].
Proof.
  apply (csvCells_all_absent []); reflexivity.
Defined.

(** C2 as stated fails on both counts.  In [epssOnly] the cvss level of the
    path the claim names is absent, and the cell is the score, not "-"; in
    [epssUnderCvss] that path leads to a score, and the cell is "-". *)
Lemma epss_path_of_spec_refuted :
  (absent epssOnly (firstn 3 epssPathOfSpec)
   /\ exists cells, csvCells epssOnly = Ok cells
                    /\ nth 4 cells "" = "0.97"
                    /\ nth 4 cells "" <> "-")
  /\ (path_get epssUnderCvss epssPathOfSpec = VStr "0.97"
      /\ exists cells, csvCells epssUnderCvss = Ok cells
                       /\ nth 4 cells "" = "-"
                       /\ nth 4 cells "" <> "0.97").
Proof.
  split; (split; [reflexivity|]); eexists;
    (split; [reflexivity|]); (split; [reflexivity|]); discriminate.
Qed.

Lemma epss_cell_from_path_witness :
  (exists cells, csvCells epssOnly = Ok cells /\ nth 4 cells "" = "0.97")
  /\ (exists cells,
         csvCells bare = Ok cells
         /\ absent bare (firstn 1 epssPath)
         /\ nth 4 cells "" = "-")
  /\ csvCells epssUnprintable = Throw TypeError.
Proof.
  split; [|split].
  - eexists. split; [reflexivity|].
    exact (f_equal (fun r => match r with Ok text => text | Throw _ => "" end)
             (eq_sym (proj1 (proj1 (epss_cell_from_path epssOnly) _ eq_refl)))).
  - eexists. split; [reflexivity|]. split; [reflexivity|].
    exact (proj2 (proj1 (epss_cell_from_path bare) _ eq_refl) 1 eq_refl).
  - exact (proj2 (epss_cell_from_path epssUnprintable) TypeError eq_refl).
Defined.

Lemma remediation_cell_escaping_witness :
  (exists cells,
      csvCells (withText "Update libssl, then restart") = Ok cells
      /\ nth 6 cells "" = "Update libssl; then restart")
  /\ (exists cells,
         csvCells (withText (lit "Set `strict`, then restart")) = Ok cells
         /\ nth 6 cells "" = lit "`Set ``strict``; then restart`").
Proof.
  split; eexists; (split; [reflexivity|]).
  - exact (proj1 (proj1 (remediation_cell_escaping
                           (withText "Update libssl, then restart") _ _
                           eq_refl eq_refl)
                    eq_refl eq_refl eq_refl eq_refl)).
  - exact (proj2 (remediation_cell_escaping
                    (withText (lit "Set `strict`, then restart")) _ _
                    eq_refl eq_refl)
             eq_refl).
Defined.

Lemma remediation_cell_default_witness :
  exists cells,
    csvCells bare = Ok cells
    /\ absent bare remediationPath
    /\ nth 6 cells ""
       = "Upgrade your installed software packages to the proposed fixed version and release.".
Proof.
  eexists. split; [reflexivity|]. split; [reflexivity|].
  exact (proj1 (remediation_cell_default bare _ eq_refl eq_refl)).
Defined.

(** A pair is known once its first component is. *)
Lemma pair_of_fst {A B : Type} (p : A * B) (a : A) :
  fst p = a -> p = (a, snd p).
Proof. intros <-. apply surjective_pairing. Qed.


Lemma isInspectorAvailableInRegion_answers_witness :
  fst (isInspectorAvailableInRegion "eu-west-1" "prod" answeringWorld) = true
  /\ fst (isInspectorAvailableInRegion "eu-west-1" "prod" refusingWorld) = true
  /\ fst (isInspectorAvailableInRegion "eu-west-1" "prod" offlineWorld) = false.
Proof.
  split; [|split].
  - pose (w' := snd (runAwsCommand probeCommand "prod" "eu-west-1"
                       answeringWorld)).
    assert (Erun : runAwsCommand probeCommand "prod" "eu-west-1" answeringWorld
                   = (Ok (VObj []), w'))
      by (apply pair_of_fst; vm_compute; reflexivity).
    rewrite (proj1 (isInspectorAvailableInRegion_answers
                      "eu-west-1" "prod" answeringWorld) _ _ Erun).
    reflexivity.
  - pose (w' := snd (runAwsCommand probeCommand "prod" "eu-west-1"
                       refusingWorld)).
    pose (message := "AWS CLI error: Command failed: An error occurred (AccessDeniedException) when calling the ListFindings operation").
    assert (Erun : runAwsCommand probeCommand "prod" "eu-west-1" refusingWorld
                   = (Throw message, w'))
      by (apply pair_of_fst; vm_compute; reflexivity).
    assert (Hsignal : accessSignal message = true)
      by (vm_compute; reflexivity).
    rewrite (proj1 (proj2 (isInspectorAvailableInRegion_answers
                             "eu-west-1" "prod" refusingWorld))
               _ _ Erun Hsignal).
    reflexivity.
  - pose (w' := snd (runAwsCommand probeCommand "prod" "eu-west-1"
                       offlineWorld)).
    pose (message := "AWS CLI error: Command failed: Could not connect to the endpoint URL").
    assert (Erun : runAwsCommand probeCommand "prod" "eu-west-1" offlineWorld
                   = (Throw message, w'))
      by (apply pair_of_fst; vm_compute; reflexivity).
    assert (Hsignal : accessSignal message = false)
      by (vm_compute; reflexivity).
    rewrite (proj2 (proj2 (isInspectorAvailableInRegion_answers
                             "eu-west-1" "prod" offlineWorld))
               _ _ Erun Hsignal).
    reflexivity.
Defined.

(** C5 as stated fails: with neither HOME nor USERPROFILE set, Profile
    Discovery raises an error to its caller; it does not return an empty
    set. *)
Lemma no_home_raises :
  homeUndetermined noHome
  /\ getAwsProfiles noHome emptyDisk
     = Throw (Error "Could not determine home directory")
  /\ getAwsProfiles noHome emptyDisk <> Ok [].
Proof.
  split; [split; left; reflexivity|]. split; [reflexivity|discriminate].
Qed.

Lemma getAwsProfiles_missing_witness :
  getAwsProfiles noHome aliceDisk
  = Throw (Error "Could not determine home directory")
  /\ getAwsProfiles homeOfAlice emptyDisk = Ok [].
Proof.
  split.
  - apply (proj1 (getAwsProfiles_missing noHome aliceDisk)).
    split; left; reflexivity.
  - apply (proj2 (getAwsProfiles_missing homeOfAlice emptyDisk) "/home/alice").
    + split; [reflexivity|discriminate].
    + reflexivity.
    + reflexivity.
Defined.

Lemma getAwsRegions_fallback_witness :
  fst (getAwsRegions "prod" offlineWorld) = Ok (VArr (map VStr defaultRegions)).
Proof.
  apply (proj1 (getAwsRegions_fallback "prod" offlineWorld)).
  left. discriminate.
Defined.

Lemma getAwsProfiles_dev_prod_stage_witness :
  getAwsProfiles homeOfAlice aliceDisk = Ok ["dev"; "prod"; "stage"].
Proof.
  pose (c1 := str1 LF ++ "aws_access_key_id = AKIAEXAMPLE" ++ str1 LF).
  pose (c2 := str1 LF ++ "aws_access_key_id = AKIAEXAMPLE2" ++ str1 LF).
  pose (g1 := str1 LF ++ "region = eu-west-1" ++ str1 LF).
  assert (Hhome : homeIs homeOfAlice "/home/alice")
    by (split; [reflexivity|discriminate]).
  assert (Hcred : existsSync aliceDisk (credentialsOf "/home/alice") = true)
    by (vm_compute; reflexivity).
  assert (Hcredtext : readFileSync aliceDisk (credentialsOf "/home/alice")
                      = Ok ("" ++ "[dev]" ++ c1 ++ "[prod]" ++ c2))
    by (vm_compute; reflexivity).
  assert (Hconf : existsSync aliceDisk (configOf "/home/alice") = true)
    by (vm_compute; reflexivity).
  assert (Hconftext : readFileSync aliceDisk (configOf "/home/alice")
                      = Ok ("" ++ "[profile stage]" ++ g1))
    by (vm_compute; reflexivity).
  assert (H0 : headerless "") by (vm_compute; reflexivity).
  assert (H1 : headerless c1) by (vm_compute; reflexivity).
  assert (H2 : headerless c2) by (vm_compute; reflexivity).
  assert (H3 : headerless g1) by (vm_compute; reflexivity).
  exact (proj1 (getAwsProfiles_dev_prod_stage homeOfAlice aliceDisk
                  "/home/alice" "" c1 c2 "" g1
                  Hhome Hcred Hcredtext Hconf Hconftext H0 H1 H2 H0 H3)).
Defined.



(** * More properties *)

(** ** Reading the CSV back *)

Lemma string_app_assoc (a b c : string) : (a ++ b) ++ c = a ++ b ++ c.
Proof. induction a as [|x a IH]; cbn; [reflexivity | now rewrite IH]. Qed.

Lemma string_app_nil_r (a : string) : a ++ "" = a.
Proof. induction a as [|x a IH]; cbn; [reflexivity | now rewrite IH]. Qed.

Lemma readCsv_end (state : reading) (field : string) (record : list string) :
  readCsv state field record "" = [(record ++ [field])%list].
Proof. reflexivity. Qed.

Lemma readCsv_comma (state : reading) (field rest : string)
  (record : list string) :
  outside_quotes state ->
  readCsv state field record (String "," rest)
  = readCsv AtStart "" (record ++ [field])%list rest.
Proof. destruct state; intros Hout; try reflexivity. now elim Hout. Qed.

Lemma readCsv_LF (state : reading) (field rest : string)
  (record : list string) :
  outside_quotes state ->
  readCsv state field record (String LF rest)
  = (record ++ [field])%list :: readCsv AtStart "" [] rest.
Proof. destruct state; intros Hout; try reflexivity. now elim Hout. Qed.

(** A run of characters that need no quoting is read as it stands. *)
Lemma readCsv_bare (s field rest : string) (record : list string)
  (state : reading) :
  state = AtStart \/ state = InBare ->
  includes s "," = false ->
  includes s (str1 dquote) = false ->
  includes s (str1 LF) = false ->
  exists state',
    outside_quotes state'
    /\ readCsv state field record (s ++ rest)
       = readCsv state' (field ++ s) record rest.
Proof.
  revert field state. induction s as [|c s IH]; intros field state Hst Hc Hq Hn.
  - exists state. rewrite string_app_nil_r. split; [|reflexivity].
    destruct Hst as [-> | ->]; discriminate.
  - change "," with (str1 ",") in Hc.
    rewrite includes_cons_char in Hc, Hq, Hn.
    apply orb_false_iff in Hc as [Hc Hc'], Hq as [Hq Hq'], Hn as [Hn Hn'].
    rewrite Ascii.eqb_sym in Hc, Hq, Hn.
    destruct (IH (field ++ str1 c) InBare (or_intror eq_refl) Hc' Hq' Hn')
      as (state' & Hout & Hread).
    exists state'. split; [assumption|].
    rewrite string_app_assoc in Hread. cbn [str1 append] in Hread.
    rewrite <- Hread.
    destruct Hst as [-> | ->]; cbn [append readCsv]; now rewrite ?Hc, ?Hq, ?Hn.
Qed.

(** Inside quotes the reader undoes the doubling, up to the closing quote. *)
Lemma readCsv_quoted (s field rest : string) (record : list string) :
  field_end rest ->
  readCsv InQuoted field record
    (replace_char dquote (String dquote (str1 dquote)) s ++ str1 dquote ++ rest)
  = readCsv AfterQuote (field ++ s) record rest.
Proof.
  intros Hrest. revert field. induction s as [|c s IH]; intros field.
  - rewrite string_app_nil_r. reflexivity.
  - cbn [replace_char]. destruct (Ascii.eqb c dquote) eqn:Ec.
    + apply Ascii.eqb_eq in Ec. subst c.
      cbn [str1 append readCsv]. rewrite !(Ascii.eqb_refl dquote).
      change (String dquote rest) with (str1 dquote ++ rest).
      rewrite IH, string_app_assoc. reflexivity.
    + cbn [str1 append readCsv]. rewrite Ec.
      change (String dquote rest) with (str1 dquote ++ rest).
      rewrite IH, string_app_assoc. reflexivity.
Qed.

(** A cell written and read back is the text of the cell. *)
Lemma readCsv_cell (text rest : string) (record : list string) :
  field_end rest ->
  exists state,
    outside_quotes state
    /\ readCsv AtStart "" record (quoteCell text ++ rest)
       = readCsv state text record rest.
Proof.
  intros Hrest. unfold quoteCell.
  assert (Hquoted :
            readCsv AtStart "" record
              ((str1 dquote
                ++ replace_char dquote (String dquote (str1 dquote)) text
                ++ str1 dquote) ++ rest)
            = readCsv AfterQuote text record rest).
  { rewrite !string_app_assoc. cbn [str1 append readCsv].
    assert (Edq : Ascii.eqb dquote dquote = true) by apply Ascii.eqb_refl.
    rewrite Edq.
    change (String dquote rest) with (str1 dquote ++ rest).
    now rewrite (readCsv_quoted text "" rest record Hrest). }
  destruct (includes text ",") eqn:Hc;
    [|destruct (includes text (str1 dquote)) eqn:Hq;
      [|destruct (includes text (str1 LF)) eqn:Hn;
        [|destruct (includes text (str1 CR))]]];
    cbn [orb]; try (exists AfterQuote; split; [discriminate | exact Hquoted]).
  destruct (readCsv_bare text "" rest record AtStart
              (or_introl eq_refl) Hc Hq Hn) as (state & Hout & Hread).
  exists state. split; [assumption|]. exact Hread.
Qed.

(** The line of a row of texts. *)
Lemma readCsv_line (row : list string) (cell : string) (record : list string)
  (rest : string) :
  rest = "" \/ (exists more, rest = String LF more) ->
  exists state,
    outside_quotes state
    /\ readCsv AtStart "" record
         (String.concat "," (map quoteCell (cell :: row)) ++ rest)
       = readCsv state (last (cell :: row) cell)
           (record ++ removelast (cell :: row))%list rest.
Proof.
  intros Hrest. revert cell record.
  induction row as [|next row IH]; intros cell record.
  - cbn [map String.concat last removelast].
    rewrite app_nil_r.
    apply readCsv_cell. destruct Hrest as [-> | [more ->]]; constructor.
  - change (String.concat "," (map quoteCell (cell :: next :: row)))
      with (quoteCell cell
            ++ "," ++ String.concat "," (map quoteCell (next :: row))).
    rewrite !string_app_assoc.
    destruct (readCsv_cell cell
                ("," ++ String.concat "," (map quoteCell (next :: row)) ++ rest)
                record (end_at_comma _)) as (state & Hout & Hread).
    rewrite Hread. cbn [append]. rewrite (readCsv_comma _ _ _ _ Hout).
    destruct (IH next (record ++ [cell])%list)
      as (state' & Hout' & Hread').
    exists state'. split; [assumption|].
    rewrite Hread'.
    change (last (cell :: next :: row) cell) with (last (next :: row) cell).
    change (removelast (cell :: next :: row))
      with (cell :: removelast (next :: row)).
    rewrite <- app_assoc. cbn [app].
    f_equal. clear. revert next. induction row; intros; [reflexivity|].
    cbn [last] in *. destruct row; [reflexivity|]. apply IHrow.
Qed.

(** The line of a record: its fields quoted where they need it, with
    commas between them. *)
Lemma readCsv_lines (records : list (list string)) (record : list string) :
  record <> [] -> Forall (fun r => r <> []) records ->
  parseCsv (String.concat (str1 LF)
              (map (fun r => String.concat "," (map quoteCell r))
                 (record :: records)))
  = record :: records.
Proof.
  unfold parseCsv.
  set (line := fun r : list string => String.concat "," (map quoteCell r)).
  revert record.
  induction records as [|next records IH]; intros record Hrecord Hrecords.
  - destruct record as [|cell row]; [contradiction|].
    change (String.concat (str1 LF) (map line [cell :: row]))
      with (line (cell :: row)).
    destruct (readCsv_line row cell [] "" (or_introl eq_refl))
      as (state & _ & Hread).
    rewrite string_app_nil_r in Hread. unfold line.
    rewrite Hread, readCsv_end.
    cbn [app]. f_equal. symmetry. apply app_removelast_last. discriminate.
  - destruct record as [|cell row]; [contradiction|].
    inversion Hrecords as [|? ? Hnext Hrest]; subst.
    change (String.concat (str1 LF) (map line ((cell :: row) :: next :: records)))
      with (line (cell :: row)
            ++ str1 LF
            ++ String.concat (str1 LF) (map line (next :: records))).
    destruct (readCsv_line row cell []
                (str1 LF ++ String.concat (str1 LF) (map line (next :: records)))
                (or_intror (ex_intro _ _ eq_refl)))
      as (state & Hout & Hread).
    unfold line at 1. rewrite Hread. cbn [str1 append].
    rewrite (readCsv_LF _ _ _ _ Hout).
    fold (str1 LF). rewrite (IH next Hnext Hrest). cbn [app].
    f_equal. symmetry. apply app_removelast_last. discriminate.
Qed.

Section ReadingBack.

Context `{JsNumber}.

(** Escaping a cell is quoting its text. *)
Lemma escapeCell_cellText (cell : value) :
  escapeCell cell = text <- cellText cell ;; Ok (quoteCell text).
Proof. destruct cell; reflexivity. Qed.

Lemma only_csvLine (row : list value) : only_TypeError (csvLine row).
Proof.
  unfold csvLine. apply only_bind; [|intros; apply only_Ok].
  apply only_mapM. intros cell _. apply only_escapeCell.
Qed.

(** The cells of a row are the quoted texts of its values. *)
Lemma escaped_texts (row : list value) (cells : list string) :
  mapM escapeCell row = Ok cells ->
  exists texts, mapM cellText row = Ok texts /\ cells = map quoteCell texts.
Proof.
  revert cells. induction row as [|cell row IH]; intros cells; cbn [mapM].
  - intros E. inversion E. now exists [].
  - rewrite escapeCell_cellText.
    destruct (cellText cell) as [text|]; cbn [bind]; [|discriminate].
    destruct (mapM escapeCell row) as [cells'|]; cbn [bind]; [|discriminate].
    intros E. inversion E; subst cells.
    destruct (IH _ eq_refl) as (texts & -> & ->).
    now exists (text :: texts).
Qed.

Lemma csvLines_texts (rows : list (list value)) (lines : list string) :
  mapM csvLine rows = Ok lines ->
  exists records,
    mapM (mapM cellText) rows = Ok records
    /\ lines = map (fun r => String.concat "," (map quoteCell r)) records.
Proof.
  revert lines. induction rows as [|row rows IH]; intros lines; cbn [mapM].
  - intros E. inversion E. now exists [].
  - unfold csvLine at 1.
    destruct (mapM escapeCell row) as [cells|] eqn:Ecells; cbn [bind];
      [|discriminate].
    destruct (escaped_texts _ _ Ecells) as (texts & -> & ->).
    destruct (mapM csvLine rows) as [lines'|]; cbn [bind]; [|discriminate].
    intros E. inversion E; subst lines.
    destruct (IH _ eq_refl) as (records & -> & ->).
    now exists (texts :: records).
Qed.

Lemma texts_csvLines (rows : list (list value)) (e : exn) :
  mapM (mapM cellText) rows = Throw e -> mapM csvLine rows = Throw TypeError.
Proof.
  intros Hthrow.
  destruct (mapM csvLine rows) as [lines|e'] eqn:Elines.
  - destruct (csvLines_texts _ _ Elines) as (records & Hrecords & _).
    congruence.
  - f_equal. revert Elines. apply only_mapM. intros row _. apply only_csvLine.
Qed.

End ReadingBack.

(** ** The serializer, cell by cell *)

Section Cells.

Context `{JsNumber}.

Lemma get_is_path_get (v x : value) (k : string) :
  get v k = Ok x -> x = path_get v [k].
Proof. intros E. now rewrite (get_path_get _ _ _ [] E). Qed.

(** [a && a.k], read as a path. *)
Lemma and_chain (v x : value) (k : string) :
  js_and v (get v k) = Ok x ->
  truthy x = truthy (path_get v [k])
  /\ (truthy x = true -> x = path_get v [k]).
Proof.
  unfold js_and. destruct (truthy v) eqn:T.
  - intros E. apply get_is_path_get in E. now subst.
  - intros E. inversion E; subst x. rewrite (path_get_falsy _ _ _ T), T.
    split; [reflexivity | discriminate].
Qed.

(** Everything [findingRow] computes, read as paths of the finding. *)
Lemma findingRow_cells (finding : value) (row : list value) :
  findingRow finding = Ok row ->
  exists nonEmpty resource hasCwe cweString text image,
    js_and (path_get finding ["resources"])
      (b <- length_gt0 (path_get finding ["resources"]) ;; Ok (VBool b))
    = Ok nonEmpty
    /\ (if truthy nonEmpty
        then index0 (path_get finding ["resources"])
        else Ok (VObj [])) = Ok resource
    /\ length_gt0 (js_or (path_get finding cwePath) (VArr [])) = Ok hasCwe
    /\ (if hasCwe
        then s <- join (js_or (path_get finding cwePath) (VArr [])) ", " ;;
             Ok (VStr s)
        else Ok dash) = Ok cweString
    /\ textOrDefault finding = VStr text
    /\ (if truthy (imageOf resource)
        then
          joined <- join (js_or (path_get (imageOf resource) ["imageTags"])
                            (VArr [])) "; " ;;
          Ok [ js_or (path_get (imageOf resource) ["registry"]) dash;
               js_or (path_get (imageOf resource) ["repositoryName"]) dash;
               js_or (path_get (imageOf resource) ["imageId"]) dash;
               js_or (path_get (imageOf resource) ["imageOs"]) dash;
               js_or (VStr joined) dash;
               js_or (path_get (imageOf resource) ["pushedAt"]) dash ]
        else Ok [dash; dash; dash; dash; dash; dash]) = Ok image
    /\ row = ([ js_or (path_get finding ["awsAccountId"]) dash;
                js_or (path_get finding ["severity"]) dash;
                js_or (path_get finding
                         ["packageVulnerabilityDetails"; "vulnerabilityId"])
                  dash;
                cweString;
                js_or (path_get finding epssPath) dash;
                js_or (path_get finding ["exploitAvailable"]) dash;
                VStr (replace_char "," ";" text);
                js_or (path_get resource ["type"]) dash;
                js_or (path_get resource ["id"]) dash ] ++ image)%list.
Proof.
  unfold findingRow. intros Hrow.
  peel Hrow as pvd Epvd. peel Hrow as res Eres.
  peel Hrow as nonEmpty Enon. peel Hrow as resource Eresource.
  peel Hrow as vd Evd. peel Hrow as cv Ecv. peel Hrow as cw Ecw.
  peel Hrow as hasCwe Ehas. peel Hrow as cweString Ecwe.
  peel Hrow as rem Erem.
  destruct (remediation_chain finding _ Erem) as (txt & Htxt & Hdefault).
  rewrite Htxt in Hrow. cbn [bind] in Hrow. rewrite Hdefault in Hrow.
  peel Hrow as det Edet. peel Hrow as img Eimg. peel Hrow as image Eimage.
  peel Hrow as awsAccountId Eacc. peel Hrow as severity Esev.
  peel Hrow as vulnerabilityId Evid.
  peel Hrow as epss Eepss. peel Hrow as epssCell Ecell.
  peel Hrow as exploitAvailable Eexp.
  peel Hrow as remediation Eremediation.
  peel Hrow as type Etype. peel Hrow as id Eid.
  inversion Hrow; subst row; clear Hrow.
  assert (Hres : res = path_get finding ["resources"])
    by now apply get_is_path_get.
  assert (Hcw : cw = path_get finding cwePath).
  { unfold cwePath. rewrite (get_path_get _ _ _ _ Epvd), <- path_get_or_empty.
    rewrite (get_path_get _ _ _ _ Evd), <- path_get_or_empty.
    rewrite (get_path_get _ _ _ _ Ecv), <- path_get_or_empty.
    now apply get_is_path_get. }
  assert (Hvid : vulnerabilityId
                 = path_get finding
                     ["packageVulnerabilityDetails"; "vulnerabilityId"]).
  { rewrite (get_path_get _ _ _ _ Epvd), <- path_get_or_empty.
    now apply get_is_path_get. }
  assert (Hcell : epssCell = js_or (path_get finding epssPath) dash)
    by (eapply epss_chain; eassumption).
  assert (Himg : truthy img = truthy (imageOf resource)
                 /\ (truthy img = true -> img = imageOf resource)).
  { unfold imageOf. rewrite (get_path_get _ _ _ _ Edet).
    now apply and_chain. }
  destruct Himg as [Himg1 Himg2].
  destruct (textOrDefault finding) as [| | | |text| |] eqn:Etext;
    try discriminate.
  cbn in Eremediation. inversion Eremediation; subst remediation.
  exists nonEmpty, resource, hasCwe, cweString, text, image.
  subst res cw vulnerabilityId epssCell.
  split; [assumption|]. split; [assumption|]. split; [assumption|].
  split; [assumption|]. split; [reflexivity|].
  split.
  - rewrite <- Himg1. destruct (truthy img) eqn:Timg; [|assumption].
    rewrite <- (Himg2 eq_refl).
    peel Eimage as registry Ereg. peel Eimage as repositoryName Erepo.
    peel Eimage as imageId Eid'. peel Eimage as imageOs Eos.
    peel Eimage as tags Etags. peel Eimage as joined Ejoined.
    peel Eimage as pushedAt Epushed.
    apply get_is_path_get in Ereg, Erepo, Eid', Eos, Etags, Epushed.
    subst. rewrite Ejoined. exact Eimage.
  - apply get_is_path_get in Eacc, Esev, Eexp, Etype, Eid. now subst.
Qed.

(** A finding with a cell that cannot be printed is not serialized. *)
Lemma csvCells_unprintable (finding cell : value) (e : exn) :
  (forall row, findingRow finding = Ok row -> In cell row) ->
  escapeCell cell = Throw e ->
  csvCells finding = Throw TypeError.
Proof.
  intros Hin Hthrow. unfold csvCells.
  destruct (findingRow finding) as [row|e'] eqn:Erow; cbn [bind].
  - apply (mapM_Throw escapeCell row cell e);
      [now apply Hin | assumption | apply only_escapeCell].
  - now rewrite (only_findingRow finding e' Erow).
Qed.

End Cells.

(** ** What the serializer gives and when it gives nothing *)

Section SerializerMore.

Context `{JsNumber}.

Lemma convertToCsv_records (findings : list value) (text : string) :
  convertToCsv findings = Ok (Some text) ->
  exists rows records,
    mapM findingRow findings = Ok rows
    /\ mapM (mapM cellText) (headers :: rows) = Ok records
    /\ parseCsv text = records
    /\ List.length (parseCsv text) = S (List.length findings)
    /\ Forall (fun record => List.length record = 15) (parseCsv text).
Proof.
  unfold convertToCsv. destruct findings as [|finding findings];
    [discriminate|].
  intros E. peel E as rows Erows. peel E as lines Elines.
  assert (Etext : text = String.concat (str1 LF) lines) by congruence.
  clear E. subst text.
  destruct (csvLines_texts _ _ Elines) as (records & Hrecords & ->).
  exists rows, records. split; [reflexivity|]. split; [assumption|].
  assert (Hlen : Forall (fun row : list value => List.length row = 15)
                   (headers :: rows)).
  { constructor; [reflexivity|].
    apply (mapM_Forall _ _ _ _ Erows). intros finding' row _ Hrow.
    now destruct (findingRow_shape _ _ Hrow). }
  assert (Hlen' : Forall (fun record : list string => List.length record = 15)
                    records).
  { apply (mapM_Forall _ _ _ _ Hrecords). intros row record Hin Hrow.
    rewrite (mapM_length _ _ _ Hrow).
    rewrite Forall_forall in Hlen. now apply Hlen. }
  assert (Hcount : List.length records = S (List.length rows))
    by exact (mapM_length _ _ _ Hrecords).
  assert (Hread : parseCsv (String.concat (str1 LF)
                    (map (fun r => String.concat "," (map quoteCell r))
                       records))
                  = records).
  { destruct records as [|record records]; [discriminate Hcount|].
    inversion Hlen' as [|? ? Hrecord Hrest]; subst.
    apply readCsv_lines.
    - intros ->. discriminate Hrecord.
    - eapply Forall_impl; [|exact Hrest]. intros r Hr ->. discriminate Hr. }
  rewrite Hread. split; [reflexivity|]. split; [|assumption].
  rewrite Hcount. f_equal. exact (mapM_length _ _ _ Erows).
Qed.

(** X1.  The text [convertToCsv] returns reads back, field by field,
    as the header record followed by one record per finding, in the order
    of the findings: each record has fifteen fields, and each field is the
    text of the cell the serializer computed, whatever commas, quotes or
    line breaks that text holds.  When the text of some cell cannot be
    had, because the cell is an object that owns a property called
    [toString], or an array that holds one, [convertToCsv] returns no text
    and throws a [TypeError]. *)
Theorem convertToCsv_reads_back (findings : list value) :
  (forall text,
      convertToCsv findings = Ok (Some text) ->
      exists rows records,
        mapM findingRow findings = Ok rows
        /\ mapM (mapM cellText) (headers :: rows) = Ok records
        /\ parseCsv text = records
        /\ List.length (parseCsv text) = S (List.length findings)
        /\ Forall (fun record => List.length record = 15) (parseCsv text))
  /\ (forall rows e,
         findings <> [] ->
         mapM findingRow findings = Ok rows ->
         mapM (mapM cellText) rows = Throw e ->
         convertToCsv findings = Throw TypeError)
  /\ (forall fields,
         has_own "toString" fields = true ->
         cellText (VObj fields) = Throw TypeError
         /\ cellText (VArr [VObj fields]) = Throw TypeError).
Proof.
  split; [|split].
  - intros text. apply convertToCsv_records.
  - intros rows e Hne Hrows Hthrow. unfold convertToCsv.
    destruct findings as [|finding findings]; [contradiction|].
    rewrite Hrows. cbn [bind mapM]. rewrite csvLine_headers. cbn [bind].
    now rewrite (texts_csvLines _ _ Hthrow).
  - intros fields Hown. cbn [cellText to_string mapM bind].
    now rewrite Hown.
Qed.

(** X2.  One finding the row builder cannot handle, such as [null], makes
    the whole of [convertToCsv] throw a [TypeError]: no text is returned for
    the other findings. *)
Theorem convertToCsv_one_bad_finding
  (findings : list value) (finding : value) (e : exn) :
  In finding findings ->
  findingRow finding = Throw e ->
  convertToCsv findings = Throw TypeError
  /\ findingRow VNull = Throw TypeError.
Proof.
  intros Hin Hrow. split; [|reflexivity].
  unfold convertToCsv. destruct findings as [|first rest]; [contradiction|].
  now rewrite (mapM_Throw findingRow _ _ _ Hin Hrow only_findingRow).
Qed.

(** X3.  Only the first entry of a finding's resource list reaches the CSV:
    the cells of a finding with resources [first :: others] are those of the
    same finding with the single resource [first]. *)
Theorem csvCells_first_resource_only
  (first : value) (others : list value) (fields : list (string * value)) :
  csvCells (withResources (VArr (first :: others)) fields)
  = csvCells (withResources (VArr [first]) fields).
Proof. reflexivity. Qed.

End SerializerMore.

Section CellTheorems.

Context `{JsNumber}.

Lemma escapeCell_dash : escapeCell dash = Ok "-".
Proof. reflexivity. Qed.

Lemma js_or_falsy (v : value) : truthy v = false -> js_or v dash = dash.
Proof. unfold js_or. now intros ->. Qed.

Lemma quoteCell_with_comma (s : string) :
  includes s "," = true ->
  quoteCell s
  = str1 dquote ++ replace_char dquote (String dquote (str1 dquote)) s
    ++ str1 dquote.
Proof. intros Hc. unfold quoteCell. now rewrite Hc. Qed.

(** The cells of a finding, from the row of [findingRow_cells]. *)
Lemma csvCells_cells (finding : value) (cells : list string) :
  csvCells finding = Ok cells ->
  exists row, findingRow finding = Ok row /\ mapM escapeCell row = Ok cells.
Proof.
  unfold csvCells. intros E. peel E as row Erow. eauto.
Qed.

Lemma mapM_skipn {A B : Type} (f : A -> result exn B) (xs ys : list A)
  (zs : list B) :
  mapM f (xs ++ ys)%list = Ok zs ->
  mapM f ys = Ok (skipn (List.length xs) zs).
Proof.
  revert zs. induction xs as [|x xs IH]; intros zs; cbn [app mapM].
  - now intros ->.
  - destruct (f x) as [y|]; cbn [bind]; [|discriminate].
    destruct (mapM f (xs ++ ys)%list) as [zs'|]; cbn [bind]; [|discriminate].
    intros E. inversion E. cbn [List.length skipn]. now apply IH.
Qed.

(** The resource the row is built from is the first one listed. *)
Lemma resource_is_first (finding nonEmpty resource : value) :
  resourcesListed finding ->
  js_and (path_get finding ["resources"])
    (b <- length_gt0 (path_get finding ["resources"]) ;; Ok (VBool b))
  = Ok nonEmpty ->
  (if truthy nonEmpty
   then index0 (path_get finding ["resources"])
   else Ok (VObj [])) = Ok resource ->
  resource = firstResource finding.
Proof.
  unfold resourcesListed, firstResource, js_and.
  generalize (path_get finding ["resources"]). intros res.
  intros [[items ->] | Hres].
  - cbn [truthy length_gt0 bind]. intros E. inversion E; subst nonEmpty.
    destruct items as [|first others]; cbn; congruence.
  - rewrite Hres. intros E. inversion E; subst nonEmpty. rewrite Hres.
    destruct res as [| | | | |items|]; try discriminate; congruence.
Qed.

(** X4.  The AWS Account ID, Severity, CVE ID and Exploit Available
    cells of a serialized finding are the escaped values found at
    awsAccountId, severity, packageVulnerabilityDetails.vulnerabilityId and
    exploitAvailable; a value that is missing or falsy, such as [false], the
    empty string or a number that is zero, gives "-".  A value there that
    cannot be converted to a string, such as an object that owns a property
    called [toString], makes the serializer throw a [TypeError]. *)
Theorem plain_cells (finding : value) :
  (forall cells,
      csvCells finding = Ok cells ->
      escapeCell (js_or (path_get finding ["awsAccountId"]) dash)
      = Ok (nth 0 cells "")
      /\ escapeCell (js_or (path_get finding ["severity"]) dash)
         = Ok (nth 1 cells "")
      /\ escapeCell
           (js_or (path_get finding
                     ["packageVulnerabilityDetails"; "vulnerabilityId"]) dash)
         = Ok (nth 2 cells "")
      /\ escapeCell (js_or (path_get finding ["exploitAvailable"]) dash)
         = Ok (nth 5 cells ""))
  /\ (forall v, truthy v = false -> escapeCell (js_or v dash) = Ok "-")
  /\ (forall path e,
         In path [ ["awsAccountId"]; ["severity"];
                   ["packageVulnerabilityDetails"; "vulnerabilityId"];
                   ["exploitAvailable"] ] ->
         escapeCell (js_or (path_get finding path) dash) = Throw e ->
         csvCells finding = Throw TypeError)
  /\ (forall fields,
         has_own "toString" fields = true ->
         escapeCell (js_or (VObj fields) dash) = Throw TypeError).
Proof.
  split; [|split; [|split]].
  - intros cells Hcells.
    destruct (csvCells_cells _ _ Hcells) as (row & Hrow & Hescaped).
    destruct (findingRow_cells _ _ Hrow)
      as (nonEmpty & resource & hasCwe & cweString & text & image
          & _ & _ & _ & _ & _ & _ & Erow).
    assert (Hnth : forall n, n < 9 ->
              escapeCell (nth n row VUndefined) = Ok (nth n cells "")).
    { intros n Hn. apply mapM_nth; [assumption|].
      rewrite Erow, length_app. cbn [List.length]. lia. }
    pose proof (Hnth 0 ltac:(lia)) as H0. pose proof (Hnth 1 ltac:(lia)) as H1.
    pose proof (Hnth 2 ltac:(lia)) as H2. pose proof (Hnth 5 ltac:(lia)) as H5.
    rewrite Erow in H0, H1, H2, H5. cbn [app nth] in H0, H1, H2, H5.
    auto.
  - intros v Hv. now rewrite js_or_falsy.
  - intros path e Hpath Hthrow.
    apply (csvCells_unprintable finding (js_or (path_get finding path) dash) e);
      [|exact Hthrow].
    intros row Hrow.
    destruct (findingRow_cells _ _ Hrow)
      as (nonEmpty & resource & hasCwe & cweString & text & image
          & _ & _ & _ & _ & _ & _ & ->).
    cbn [In] in Hpath.
    destruct Hpath as [<-|[<-|[<-|[<-|[]]]]]; cbn [app In]; auto 10.
  - intros fields Hown. unfold js_or. cbn [truthy escapeCell to_string].
    now rewrite Hown.
Qed.

(** X5.  The CWEs cell of a serialized finding is made from the array at
    packageVulnerabilityDetails.vulnerabilityDetails.cvss.cweIds: its
    entries, each converted to a string, joined by ", " and then escaped, so
    that two or more entries always give a cell in double quotes; no value
    there, or an empty array, gives "-".  When an entry cannot be converted
    to a string, the serializer throws a [TypeError]. *)
Theorem cwe_cell (finding : value) :
  (forall cells,
      csvCells finding = Ok cells ->
      (forall items,
          path_get finding cwePath = VArr items -> items <> [] ->
          exists texts,
            mapM elem_to_string items = Ok texts
            /\ nth 3 cells "" = quoteCell (String.concat ", " texts))
      /\ (forall first second others,
             path_get finding cwePath = VArr (first :: second :: others) ->
             starts_with (str1 dquote) (nth 3 cells "") = true)
      /\ (truthy (path_get finding cwePath) = false
          \/ path_get finding cwePath = VArr [] ->
          nth 3 cells "" = "-"))
  /\ (forall items e,
         path_get finding cwePath = VArr items -> items <> [] ->
         mapM elem_to_string items = Throw e ->
         csvCells finding = Throw TypeError).
Proof.
  assert (Hjoined : forall row items,
             findingRow finding = Ok row ->
             path_get finding cwePath = VArr items -> items <> [] ->
             exists texts,
               mapM elem_to_string items = Ok texts
               /\ nth 3 row VUndefined = VStr (String.concat ", " texts)).
  { intros row items Hrow Hpath Hne.
    destruct (findingRow_cells _ _ Hrow)
      as (nonEmpty & resource & hasCwe & cweString & text & image
          & _ & _ & Hhas & Hcwe & _ & _ & ->).
    rewrite Hpath in Hhas, Hcwe.
    unfold js_or in Hhas, Hcwe. cbn [truthy length_gt0] in Hhas, Hcwe.
    destruct items as [|first others]; [contradiction|].
    cbn in Hhas. inversion Hhas; subst hasCwe.
    cbn [join] in Hcwe.
    destruct (mapM elem_to_string (first :: others)) as [texts|] eqn:Etexts;
      cbn [bind] in Hcwe; [|discriminate].
    exists texts. split; [reflexivity|]. cbn [app nth]. congruence. }
  split.
  - intros cells Hcells.
    destruct (csvCells_cells _ _ Hcells) as (row & Hrow & Hescaped).
    assert (H3 : escapeCell (nth 3 row VUndefined) = Ok (nth 3 cells "")).
    { apply mapM_nth; [assumption|].
      destruct (findingRow_shape _ _ Hrow) as [Hlen _]. lia. }
    assert (Hitems : forall items,
               path_get finding cwePath = VArr items -> items <> [] ->
               exists texts,
                 mapM elem_to_string items = Ok texts
                 /\ nth 3 cells "" = quoteCell (String.concat ", " texts)).
    { intros items Hpath Hne.
      destruct (Hjoined _ _ Hrow Hpath Hne) as (texts & Htexts & Hcell).
      exists texts. split; [assumption|].
      rewrite Hcell in H3. cbn [escapeCell to_string bind] in H3. congruence. }
    split; [exact Hitems|]. split.
    + intros first second others Hpath.
      destruct (Hitems _ Hpath) as (texts & Htexts & ->); [discriminate|].
      rewrite quoteCell_with_comma;
        [cbn [str1 append starts_with]; now rewrite Ascii.eqb_refl|].
      cbn [mapM] in Htexts.
      destruct (elem_to_string first) as [t1|]; cbn [bind] in Htexts;
        [|discriminate].
      destruct (elem_to_string second) as [t2|]; cbn [bind] in Htexts;
        [|discriminate].
      destruct (mapM elem_to_string others) as [ts|]; cbn [bind] in Htexts;
        [|discriminate].
      inversion Htexts; subst texts.
      change (String.concat ", " (t1 :: t2 :: ts))
        with (t1 ++ ", " ++ String.concat ", " (t2 :: ts)).
      apply includes_app_r, includes_app_l. reflexivity.
    + intros Hnone.
      destruct (findingRow_cells _ _ Hrow)
        as (nonEmpty & resource & hasCwe & cweString & text & image
            & _ & _ & Hhas & Hcwe & _ & _ & Erow).
      assert (Hlist : js_or (path_get finding cwePath) (VArr []) = VArr []).
      { destruct Hnone as [Hfalsy | ->]; [|reflexivity].
        unfold js_or. now rewrite Hfalsy. }
      rewrite Hlist in Hhas, Hcwe. cbn in Hhas. inversion Hhas; subst hasCwe.
      inversion Hcwe; subst cweString.
      rewrite Erow in H3. cbn [app nth] in H3.
      rewrite escapeCell_dash in H3. congruence.
  - intros items e Hpath Hne Hthrow. unfold csvCells.
    destruct (findingRow finding) as [row|e'] eqn:Erow; cbn [bind].
    + destruct (Hjoined _ _ eq_refl Hpath Hne) as (texts & Htexts & _).
      congruence.
    + now rewrite (only_findingRow finding e' Erow).
Qed.

(** X6.  When the resource list of a serialized finding is an array
    (or there is none), the Resource Type and Resource ID cells are those of
    its first entry, "-" when missing; without container-image details on
    that entry the six image cells are all "-"; with them, they are the
    escaped registry, repository name, image id, image OS and push time,
    and the tags, each converted to a string, joined by "; ". *)
Theorem resource_cells (finding : value) (cells : list string) :
  csvCells finding = Ok cells ->
  resourcesListed finding ->
  let resource := firstResource finding in
  let image := imageOf resource in
  escapeCell (js_or (path_get resource ["type"]) dash) = Ok (nth 7 cells "")
  /\ escapeCell (js_or (path_get resource ["id"]) dash) = Ok (nth 8 cells "")
  /\ (truthy image = false ->
      skipn 9 cells = ["-"; "-"; "-"; "-"; "-"; "-"])
  /\ (truthy image = true ->
      exists tags texts,
        js_or (path_get image ["imageTags"]) (VArr []) = VArr tags
        /\ mapM elem_to_string tags = Ok texts
        /\ mapM escapeCell
             [ js_or (path_get image ["registry"]) dash;
               js_or (path_get image ["repositoryName"]) dash;
               js_or (path_get image ["imageId"]) dash;
               js_or (path_get image ["imageOs"]) dash;
               js_or (VStr (String.concat "; " texts)) dash;
               js_or (path_get image ["pushedAt"]) dash ]
           = Ok (skipn 9 cells)).
Proof.
  intros Hcells Hlisted resource image.
  destruct (csvCells_cells _ _ Hcells) as (row & Hrow & Hescaped).
  destruct (findingRow_cells _ _ Hrow)
    as (nonEmpty & resource' & hasCwe & cweString & text & imageCells
        & Hnon & Hresource & _ & _ & _ & Himage & Erow).
  assert (resource' = resource) as ->
    by (eapply resource_is_first; eassumption).
  fold image in Himage.
  assert (Hnth : forall n, n < 9 ->
            escapeCell (nth n row VUndefined) = Ok (nth n cells "")).
  { intros n Hn. apply mapM_nth; [assumption|].
    rewrite Erow, length_app. cbn [List.length]. lia. }
  pose proof (Hnth 7 ltac:(lia)) as H7. pose proof (Hnth 8 ltac:(lia)) as H8.
  rewrite Erow in H7, H8, Hescaped. cbn [app nth] in H7, H8.
  apply mapM_skipn in Hescaped. cbn [List.length] in Hescaped.
  split; [exact H7|]. split; [exact H8|]. split.
  - intros Hnone. rewrite Hnone in Himage. inversion Himage; subst imageCells.
    cbn in Hescaped. now inversion Hescaped.
  - intros Hsome. rewrite Hsome in Himage.
    destruct (js_or (path_get image ["imageTags"]) (VArr []))
      as [| | | | |tags|]; try discriminate Himage.
    cbn [join] in Himage.
    destruct (mapM elem_to_string tags) as [texts|] eqn:Etexts;
      cbn [bind] in Himage; [|discriminate].
    exists tags, texts. split; [reflexivity|]. split; [exact Etexts|].
    inversion Himage; subst imageCells. exact Hescaped.
Qed.

End CellTheorems.

(** ** Profile discovery, in general *)

Lemma starts_with_includes (x s : string) :
  starts_with x s = true -> includes s x = true.
Proof. intros Hx. destruct s; cbn; now rewrite Hx. Qed.

Lemma includes_cons (c : ascii) (s x : string) :
  includes s x = true -> includes (String c s) x = true.
Proof. intros Hx. cbn. rewrite Hx. apply orb_true_r. Qed.

Lemma starts_with_app_drop (a b s : string) :
  starts_with a s = true ->
  starts_with b (string_drop (String.length a) s) = true ->
  starts_with (a ++ b) s = true.
Proof.
  revert s. induction a as [|c a IH]; intros s; [easy|].
  destruct s as [|d s]; cbn; [discriminate|].
  intros Ha Hb. apply andb_true_iff in Ha as [-> Ha]. cbn. now apply IH.
Qed.

(** What the lazy group captures: the text up to the first closing bracket,
    with no line break in it. *)
Lemma lazy_to_bracket_sound (s cap : string) :
  lazy_to_bracket s = Some cap ->
  starts_with (cap ++ "]") s = true
  /\ includes cap "]" = false
  /\ includes cap (str1 LF) = false
  /\ includes cap (str1 CR) = false.
Proof.
  revert cap. induction s as [|c s IH]; intros cap; cbn [lazy_to_bracket];
    [discriminate|].
  destruct (Ascii.eqb c "]") eqn:Eclose.
  - intros E. inversion E; subst cap.
    apply Ascii.eqb_eq in Eclose. subst c. repeat split; reflexivity.
  - destruct (at_line_terminator (String c s)) eqn:Eline; [discriminate|].
    destruct (lazy_to_bracket s) as [cap'|]; [|discriminate].
    intros E. inversion E; subst cap.
    destruct (IH cap' eq_refl) as (Hstart & Hclose & Hlf & Hcr).
    unfold at_line_terminator in Eline.
    apply orb_false_iff in Eline as [Eline _].
    apply orb_false_iff in Eline as [Eline _].
    apply orb_false_iff in Eline as [Elf Ecr].
    cbn [str1 starts_with] in Elf, Ecr. rewrite andb_true_r in Elf, Ecr.
    change "]" with (str1 "]"). rewrite !includes_cons_char.
    rewrite Hlf, Hcr. change (str1 "]") with "]". rewrite Hclose.
    rewrite (Ascii.eqb_sym "]" c), Eclose, Elf, Ecr.
    cbn [append starts_with]. rewrite Ascii.eqb_refl. auto.
Qed.

Lemma match_here_sound (opener s cap : string) :
  match_here opener s = Some cap ->
  includes s (opener ++ cap ++ "]") = true
  /\ includes cap "]" = false
  /\ includes cap (str1 LF) = false
  /\ includes cap (str1 CR) = false.
Proof.
  unfold match_here. destruct (starts_with opener s) eqn:Hopen; [|discriminate].
  intros Hlazy. apply lazy_to_bracket_sound in Hlazy as (Hstart & Hrest).
  split; [|exact Hrest].
  now apply starts_with_includes, starts_with_app_drop.
Qed.

(** Every capture of the scan stands in the text, between the opener and a
    closing bracket. *)
Lemma captures_sound (opener text name : string) (skip : nat) :
  In name (captures opener skip text) ->
  includes text (opener ++ name ++ "]") = true
  /\ includes name "]" = false
  /\ includes name (str1 LF) = false
  /\ includes name (str1 CR) = false.
Proof.
  revert skip. induction text as [|c text IH]; intros skip; [contradiction|].
  cbn [captures]. destruct skip as [|k].
  - destruct (match_here opener (String c text)) as [cap|] eqn:Ehere.
    + intros [<- | Hin].
      * now apply match_here_sound.
      * destruct (IH _ Hin) as (Hinc & Hrest).
        split; [now apply includes_cons | exact Hrest].
    + intros Hin. destruct (IH _ Hin) as (Hinc & Hrest).
      split; [now apply includes_cons | exact Hrest].
  - intros Hin. destruct (IH _ Hin) as (Hinc & Hrest).
    split; [now apply includes_cons | exact Hrest].
Qed.

(** A text in which the opener does not occur yields no capture. *)
Lemma captures_absent (opener text : string) :
  includes text opener = false -> captures opener 0 text = [].
Proof.
  induction text as [|c text IH]; [reflexivity|].
  cbn [includes captures]. intros Hno.
  apply orb_false_iff in Hno as [Hhere Hlater].
  unfold match_here. rewrite Hhere. now apply IH.
Qed.

Lemma set_add_In (profiles : list string) (x y : string) :
  In y (set_add profiles x) <-> In y profiles \/ y = x.
Proof.
  unfold set_add. destruct (existsb (String.eqb x) profiles) eqn:Ein.
  - apply existsb_exists in Ein as (z & Hz & Exz).
    apply String.eqb_eq in Exz. subst z. intuition congruence.
  - rewrite in_app_iff. cbn. intuition.
Qed.

Lemma set_add_NoDup (profiles : list string) (x : string) :
  NoDup profiles -> NoDup (set_add profiles x).
Proof.
  intros Hnd. unfold set_add.
  destruct (existsb (String.eqb x) profiles) eqn:Ein; [assumption|].
  apply NoDup_app; [assumption | repeat constructor; intros [] |].
  intros y Hy [Exy | []]. subst y.
  assert (Hex : existsb (String.eqb x) profiles = true).
  { apply existsb_exists. exists x. split; [assumption|apply String.eqb_refl]. }
  congruence.
Qed.

Lemma fold_set_add_In (names profiles : list string) (y : string) :
  In y (fold_left set_add names profiles) <-> In y profiles \/ In y names.
Proof.
  revert profiles. induction names as [|x names IH]; intros profiles; cbn.
  - intuition.
  - rewrite IH, set_add_In. intuition.
Qed.

Lemma fold_set_add_NoDup (names profiles : list string) :
  NoDup profiles -> NoDup (fold_left set_add names profiles).
Proof.
  revert profiles. induction names as [|x names IH]; intros profiles Hnd;
    cbn; [assumption|].
  now apply IH, set_add_NoDup.
Qed.

Section ProfileMore.

Context `{JsHost}.

(** What one file adds to the profiles found so far. *)
Lemma scanFile_Ok (fs : FileSystem) (path opener : string)
  (profiles found : list string) :
  scanFile fs path opener profiles = Ok found ->
  (existsSync fs path = false /\ found = profiles)
  \/ exists text,
       existsSync fs path = true
       /\ readFileSync fs path = Ok text
       /\ found = fold_left set_add (captures opener 0 text) profiles.
Proof.
  unfold scanFile. destruct (existsSync fs path); [|intros E; left; split; congruence].
  destruct (readFileSync fs path) as [text|m]; cbn; [|discriminate].
  intros E. right. exists text. repeat split. congruence.
Qed.

Lemma getAwsProfiles_Ok (env : ProcessEnv) (fs : FileSystem)
  (found : list string) :
  getAwsProfiles env fs = Ok found ->
  exists home fromCredentials,
    homeIs env home
    /\ scanFile fs (credentialsOf home) "[" [] = Ok fromCredentials
    /\ scanFile fs (configOf home) "[profile " fromCredentials = Ok found.
Proof.
  unfold getAwsProfiles, homeIs.
  destruct (env_or (HOME env) (USERPROFILE env)) as [home|]; [|discriminate].
  destruct (String.eqb home "") eqn:Ehome; [discriminate|].
  intros E. peel E as fromCredentials Ecred. peel E as fromConfig Econf.
  inversion E; subst found. exists home, fromCredentials.
  apply String.eqb_neq in Ehome. unfold credentialsOf, configOf. auto.
Qed.

(** X7.  Profile Discovery never returns a name twice, whatever the two
    files hold. *)
Theorem getAwsProfiles_NoDup (env : ProcessEnv) (fs : FileSystem)
  (found : list string) :
  getAwsProfiles env fs = Ok found -> NoDup found.
Proof.
  intros E.
  destruct (getAwsProfiles_Ok _ _ _ E) as (home & fromCred & _ & Ecred & Econf).
  assert (Hcred : NoDup fromCred).
  { destruct (scanFile_Ok _ _ _ _ _ Ecred) as [[_ ->] | (text & _ & _ & ->)].
    - constructor.
    - apply fold_set_add_NoDup. constructor. }
  destruct (scanFile_Ok _ _ _ _ _ Econf) as [[_ ->] | (text & _ & _ & ->)].
  - assumption.
  - now apply fold_set_add_NoDup.
Qed.

(** X8.  Every name Profile Discovery returns stands in one of the two
    files as a header, [name] in the credentials file or [profile name] in
    the config file, and holds no closing bracket and no line break. *)
Theorem getAwsProfiles_names (env : ProcessEnv) (fs : FileSystem)
  (found : list string) (name : string) :
  getAwsProfiles env fs = Ok found ->
  In name found ->
  includes name "]" = false
  /\ includes name (str1 LF) = false
  /\ includes name (str1 CR) = false
  /\ exists home,
       homeIs env home
       /\ ((exists text,
               readFileSync fs (credentialsOf home) = Ok text
               /\ includes text ("[" ++ name ++ "]") = true)
           \/ (exists text,
                  readFileSync fs (configOf home) = Ok text
                  /\ includes text ("[profile " ++ name ++ "]") = true)).
Proof.
  intros E Hin.
  destruct (getAwsProfiles_Ok _ _ _ E) as (home & fromCred & Hhome & Ecred & Econf).
  assert (Hcred : In name fromCred ->
            includes name "]" = false
            /\ includes name (str1 LF) = false
            /\ includes name (str1 CR) = false
            /\ exists text,
                 readFileSync fs (credentialsOf home) = Ok text
                 /\ includes text ("[" ++ name ++ "]") = true).
  { intros Hname.
    destruct (scanFile_Ok _ _ _ _ _ Ecred) as [[_ ->] | (text & _ & Hread & ->)];
      [contradiction|].
    apply fold_set_add_In in Hname as [[] | Hname].
    destruct (captures_sound _ _ _ _ Hname) as (Hinc & H1 & H2 & H3).
    repeat (split; [assumption|]). exists text. auto. }
  destruct (scanFile_Ok _ _ _ _ _ Econf) as [[_ ->] | (text & _ & Hread & ->)].
  - destruct (Hcred Hin) as (H1 & H2 & H3 & Hfile).
    repeat (split; [assumption|]). exists home. split; [assumption|]. now left.
  - apply fold_set_add_In in Hin as [Hin | Hin].
    + destruct (Hcred Hin) as (H1 & H2 & H3 & Hfile).
      repeat (split; [assumption|]). exists home. split; [assumption|].
      now left.
    + destruct (captures_sound _ _ _ _ Hin) as (Hinc & H1 & H2 & H3).
      repeat (split; [assumption|]). exists home. split; [assumption|].
      right. exists text. auto.
Qed.

(** X9.  When neither file holds a header of its kind (no "[" in
    the credentials file, no "[profile " in the config file, a missing file
    counting as empty), Profile Discovery returns no profile; a config file
    with only a [default] section is such a file. *)
Theorem getAwsProfiles_no_headers (env : ProcessEnv) (fs : FileSystem)
  (home : string) :
  homeIs env home ->
  (existsSync fs (credentialsOf home) = true ->
   exists text, readFileSync fs (credentialsOf home) = Ok text
                /\ includes text "[" = false) ->
  (existsSync fs (configOf home) = true ->
   exists text, readFileSync fs (configOf home) = Ok text
                /\ includes text "[profile " = false) ->
  getAwsProfiles env fs = Ok [].
Proof.
  intros [Henv Hhome] Hcred Hconf. unfold getAwsProfiles. rewrite Henv.
  apply String.eqb_neq in Hhome. rewrite Hhome.
  fold (credentialsOf home). fold (configOf home). unfold scanFile.
  destruct (existsSync fs (credentialsOf home)).
  - destruct (Hcred eq_refl) as (text & -> & Hno). cbn [liftError bind].
    rewrite (captures_absent _ _ Hno). cbn [fold_left].
    destruct (existsSync fs (configOf home)); [|reflexivity].
    destruct (Hconf eq_refl) as (text' & -> & Hno'). cbn [liftError bind].
    now rewrite (captures_absent _ _ Hno').
  - cbn [bind].
    destruct (existsSync fs (configOf home)); [|reflexivity].
    destruct (Hconf eq_refl) as (text' & -> & Hno'). cbn [liftError bind].
    now rewrite (captures_absent _ _ Hno').
Qed.

End ProfileMore.

(** ** Retrieval and probe, in general *)

Section CommandMore.

Context `{JsHost}.

(** X10.  A finding type other than '1', '2' or '3' makes Finding
    Retrieval fail at once with the error "Invalid finding type": no
    command is handed to the shell and the world is left as it was. *)
Theorem getInspectorFindings_invalid_type
  (profile region findingType : string) (w : World) :
  findingType <> "1" -> findingType <> "2" -> findingType <> "3" ->
  getInspectorFindings profile region findingType w
  = (Throw (Error "Invalid finding type"), w).
Proof.
  intros H1 H2 H3. unfold getInspectorFindings, filterCommands.
  apply String.eqb_neq in H1, H2, H3. now rewrite H1, H2, H3.
Qed.

(** X11.  When the critical-severity query fails, Finding Retrieval
    fails with the same message and never issues the high-severity query:
    the one command handed to the shell is the critical one. *)
Theorem getInspectorFindings_first_failure
  (profile region findingType critical high message : string)
  (w w1 : World) :
  filterCommands findingType = Ok (critical, high) ->
  runAwsCommand critical profile region w = (Throw message, w1) ->
  getInspectorFindings profile region findingType w
  = (Throw (Error message), w1)
  /\ issued w1 = (issued w ++ [fullCommand critical profile region])%list.
Proof.
  intros Hcmds Hrun. unfold getInspectorFindings. rewrite Hcmds, Hrun.
  split; [reflexivity|]. exact (runAwsCommand_issued _ _ _ _ _ _ Hrun).
Qed.

(** X12.  Whatever the CLI answers, the Availability Probe hands exactly
    one command to the shell, the list-findings call limited to one result
    with the profile and region given, and leaves the rest of the world as
    it was. *)
Theorem isInspectorAvailableInRegion_one_command
  (region profile : string) (w : World) :
  let w' := snd (isInspectorAvailableInRegion region profile w) in
  issued w'
  = (issued w
     ++ [("aws inspector2 list-findings --max-results 1 "
          ++ optionArg "--profile" profile ++ " "
          ++ optionArg "--region" region)%string])%list
  /\ respond w' = respond w.
Proof.
  unfold isInspectorAvailableInRegion.
  destruct (runAwsCommand probeCommand profile region w) as [[data|m] w'] eqn:E;
    cbn [snd];
    destruct (runAwsCommand_world _ _ _ _ _ _ E) as [Hresp _];
    (split; [exact (runAwsCommand_issued _ _ _ _ _ _ E) | exact Hresp]).
Qed.

(** X13.  For each finding type the two commands are the same text
    around the severity, CRITICAL in the first and HIGH in the second; the
    status asked for is CLOSED for type '3' and ACTIVE otherwise; only type
    '1' filters on exploitAvailable YES. *)
Theorem filterCommands_table (findingType : string) :
  In findingType ["1"; "2"; "3"] ->
  exists before after,
    filterCommands findingType
    = Ok (before ++ "CRITICAL" ++ after, before ++ "HIGH" ++ after)
    /\ includes before
         (equalsFilter "findingStatus"
            (if String.eqb findingType "3" then "CLOSED" else "ACTIVE"))
       = true
    /\ includes after (equalsFilter "exploitAvailable" "YES")
       = String.eqb findingType "1"
    /\ includes (before ++ after) "exploitAvailable"
       = String.eqb findingType "1".
Proof.
  intros Hin. cbn in Hin. destruct Hin as [<- | [<- | [<- | []]]].
  - exists (lit "inspector2 list-findings --filter-criteria '{`findingStatus`:[{`comparison`:`EQUALS`,`value`:`ACTIVE`}],`severity`:[{`comparison`:`EQUALS`,`value`:`"),
           (lit "`}],`exploitAvailable`:[{`comparison`:`EQUALS`,`value`:`YES`}]}' --max-results 100").
    repeat split; vm_compute; reflexivity.
  - exists (lit "inspector2 list-findings --filter-criteria '{`findingStatus`:[{`comparison`:`EQUALS`,`value`:`ACTIVE`}],`severity`:[{`comparison`:`EQUALS`,`value`:`"),
           (lit "`}]}' --max-results 100").
    repeat split; vm_compute; reflexivity.
  - exists (lit "inspector2 list-findings --filter-criteria '{`findingStatus`:[{`comparison`:`EQUALS`,`value`:`CLOSED`}],`severity`:[{`comparison`:`EQUALS`,`value`:`"),
           (lit "`}]}' --max-results 100").
    repeat split; vm_compute; reflexivity.
Qed.

(** X14.  The fallback list only covers a failed or unparsable region
    query.  When the CLI prints well-formed JSON that is not an array,
    [getAwsRegions] resolves with that value as it is, and building the
    region menu from it throws a [TypeError], with or without a default
    region. *)
Theorem regionMenu_needs_array (profile : string) (w : World)
  (regions : value) :
  let out := fst (exec {| command := regionsCommand profile;
                          maxBuffer := None |} w) in
  exec_error out = None ->
  JSON_parse (stdout out) = inl regions ->
  (forall items, regions <> VArr items) ->
  fst (getAwsRegions profile w) = Ok regions
  /\ forall defaultRegion, regionMenu defaultRegion regions = Throw TypeError.
Proof.
  unfold getAwsRegions, exec. cbn [fst]. intros -> -> Hshape.
  split; [reflexivity|]. intros defaultRegion.
  destruct regions; try reflexivity. now elim (Hshape items).
Qed.

End CommandMore.

(** ** Numbers typed at a menu *)

Lemma solid_not_space (c : ascii) : is_solid c = true -> is_ascii_space c = false.
Proof.
  unfold is_solid, is_ascii_space, byte. intros Hc.
  apply andb_true_iff in Hc as [Hlo Hhi].
  apply Nat.leb_le in Hlo, Hhi.
  repeat rewrite orb_false_iff. repeat split; apply Nat.eqb_neq; lia.
Qed.

(** White space is only skipped when there is some. *)
Lemma trimStart_solid (c : ascii) (rest : string) :
  is_solid c = true -> trimStart (String c rest) = String c rest.
Proof.
  intros Hc. cbn [trimStart]. rewrite (solid_not_space _ Hc).
  unfold is_solid in Hc. apply andb_true_iff in Hc as [Hlo Hhi].
  apply Nat.leb_le in Hlo, Hhi.
  assert (B : forall n, 127 <= n -> byte n c = false)
    by (intros n Hn; unfold byte; apply Nat.eqb_neq; lia).
  destruct rest as [|b rest]; [reflexivity|].
  rewrite (B 194) by lia. cbn [andb].
  destruct rest as [|d rest]; [reflexivity|].
  unfold is_space3. now rewrite (B 225), (B 226), (B 227), (B 239) by lia.
Qed.

Lemma trimStart_spaces (spaces rest : string) :
  all_chars is_ascii_space spaces = true ->
  trimStart (spaces ++ rest) = trimStart rest.
Proof.
  induction spaces as [|c spaces IH]; [reflexivity|].
  cbn [all_chars append trimStart]. intros Hs.
  apply andb_true_iff in Hs as [-> Hs]. now apply IH.
Qed.

Lemma digit_is_solid (c : ascii) : is_digit c = true -> is_solid c = true.
Proof.
  unfold is_digit, is_solid. intros Hc.
  apply andb_true_iff in Hc as [Hlo Hhi]. apply Nat.leb_le in Hlo, Hhi.
  apply andb_true_iff. split; apply Nat.leb_le; lia.
Qed.

Lemma digit_value_digit (c : ascii) :
  is_digit c = true ->
  digit_value 10 c = Some (Z.of_nat (nat_of_ascii c) - 48)%Z.
Proof. unfold digit_value, is_digit. now intros ->. Qed.

Lemma digit_value_not_digit (c : ascii) :
  is_digit c = false -> digit_value 10 c = None.
Proof. unfold digit_value, is_digit. now intros ->. Qed.

(** The characters of a numeral are digits. *)
Lemma string_of_uint_digits (d : Decimal.uint) :
  all_chars is_digit (NilEmpty.string_of_uint d) = true.
Proof. induction d; cbn [NilEmpty.string_of_uint all_chars]; auto. Qed.

Lemma numeral_digits (n : nat) :
  all_chars is_digit (numeral n) = true /\ numeral n <> "".
Proof.
  unfold numeral, NilZero.string_of_uint.
  destruct (Nat.to_uint n) eqn:E; split;
    try discriminate; try reflexivity;
    match goal with
    | |- all_chars _ (NilEmpty.string_of_uint ?d) = true =>
        apply (string_of_uint_digits d)
    end.
Qed.

(** Reading the digits of a numeral gives back the number. *)
Lemma digits_string_of_uint (d : Decimal.uint) (acc : nat) (tail : string) :
  digits 10 (Some (Z.of_nat acc)) (NilEmpty.string_of_uint d ++ tail)
  = digits 10 (Some (Z.of_nat (Nat.of_uint_acc d acc))) tail.
Proof.
  revert acc.
  induction d as [|d IH|d IH|d IH|d IH|d IH|d IH|d IH|d IH|d IH|d IH];
    intros acc; [reflexivity|..];
    cbn [NilEmpty.string_of_uint append digits Nat.of_uint_acc];
    rewrite Nat.tail_mul_spec;
    match goal with
    | |- context [digit_value 10 ?c] =>
        let v := eval vm_compute in (digit_value 10 c) in
        change (digit_value 10 c) with v
    end;
    cbv beta iota; rewrite <- IH; f_equal; f_equal; lia.
Qed.

Lemma digits_numeral (d : Decimal.uint) (tail : string) :
  digits 10 (Some 0%Z) (NilZero.string_of_uint d ++ tail)
  = digits 10 (Some (Z.of_nat (Nat.of_uint d))) tail.
Proof.
  destruct d; [reflexivity|..];
    apply (digits_string_of_uint _ 0 tail).
Qed.

Lemma digits_stop (acc : option Z) (tail : string) :
  match tail with
  | EmptyString => true
  | String c _ => negb (is_digit c)
  end = true ->
  digits 10 acc tail = acc.
Proof.
  destruct tail as [|c tail]; [reflexivity|].
  intros Hc. apply negb_true_iff in Hc. cbn [digits].
  now rewrite (digit_value_not_digit _ Hc).
Qed.

Lemma digits_first (s : string) :
  all_chars is_digit s = true -> s <> "" ->
  forall tail, digits 10 None (s ++ tail) = digits 10 (Some 0%Z) (s ++ tail).
Proof.
  destruct s as [|c s]; [congruence|]. intros Hs _ tail.
  cbn [all_chars] in Hs. apply andb_true_iff in Hs as [Hc _].
  cbn [append digits]. now rewrite (digit_value_digit _ Hc).
Qed.

Lemma ends_number_stop (k : nat) (tail : string) :
  ends_number k tail = true ->
  match tail with
  | EmptyString => true
  | String c _ => negb (is_digit c)
  end = true.
Proof.
  destruct tail as [|c tail]; [reflexivity|]. unfold ends_number.
  intros Ht. now apply andb_true_iff in Ht as [Ht _].
Qed.

(** Only the numeral of zero begins with a zero. *)
Lemma unorm_D0_Nil (u v : Decimal.uint) :
  Decimal.unorm u = Decimal.D0 v -> v = Decimal.Nil.
Proof.
  induction u; cbn [Decimal.unorm Decimal.nzhead];
    try (intros E; discriminate E); try assumption.
  intros E. now inversion E.
Qed.

Lemma to_uint_unorm (n : nat) :
  Nat.to_uint n = Decimal.unorm (Nat.to_uint n).
Proof.
  rewrite <- (DecimalNat.Unsigned.of_to n) at 1.
  apply DecimalNat.Unsigned.to_of.
Qed.

Lemma to_uint_D0 (n : nat) (u : Decimal.uint) :
  Nat.to_uint n = Decimal.D0 u -> n = 0.
Proof.
  intros E. pose proof (to_uint_unorm n) as Hnorm.
  rewrite E in Hnorm. symmetry in Hnorm.
  pose proof (unorm_D0_Nil _ _ Hnorm) as ->.
  apply DecimalNat.Unsigned.to_uint_inj. now rewrite E.
Qed.

Lemma numeral_head (n : nat) (c : ascii) (s : string) :
  n <> 0 -> numeral n = String c s -> c <> "0"%char.
Proof.
  intros Hn. unfold numeral, NilZero.string_of_uint.
  destruct (Nat.to_uint n) as [|u|u|u|u|u|u|u|u|u|u] eqn:E;
    cbn [NilEmpty.string_of_uint]; intros Es; inversion Es;
    try discriminate.
  - pose proof (to_uint_unorm n) as Hnorm. rewrite E in Hnorm.
    symmetry in Hnorm. now apply DecimalFacts.unorm_nonnil in Hnorm.
  - now apply to_uint_D0 in E.
Qed.

(** A numeral followed by something that cannot continue it has no sign
    and no hexadecimal prefix. *)
Lemma no_prefix (n : nat) (tail : string) :
  ends_number n tail = true ->
  starts_with "-" (numeral n ++ tail) = false
  /\ starts_with "+" (numeral n ++ tail) = false
  /\ starts_with "0x" (numeral n ++ tail) = false
  /\ starts_with "0X" (numeral n ++ tail) = false.
Proof.
  intros Ht. destruct (numeral_digits n) as [Hs Hne].
  destruct (numeral n) as [|c s] eqn:En; [congruence|].
  cbn [all_chars] in Hs. apply andb_true_iff in Hs as [Hc Hs].
  assert (Hnd : forall x, is_digit x = false -> Ascii.eqb x c = false).
  { intros x Hx. apply Ascii.eqb_neq. intros ->. congruence. }
  cbn [append starts_with].
  rewrite (Hnd "-"%char eq_refl), (Hnd "+"%char eq_refl). cbn [andb].
  split; [reflexivity|]. split; [reflexivity|].
  destruct (Nat.eqb n 0) eqn:E0.
  - apply Nat.eqb_eq in E0. subst n. inversion En; subst c s.
    cbn [append]. destruct tail as [|t tail];
      [now rewrite !andb_false_r|].
    unfold ends_number in Ht. cbn [Nat.eqb negb orb] in Ht.
    apply andb_true_iff in Ht as [_ Ht].
    apply andb_true_iff in Ht as [Hx HX].
    apply negb_true_iff in Hx, HX.
    rewrite (Ascii.eqb_sym "x" t), (Ascii.eqb_sym "X" t), Hx, HX.
    now rewrite !andb_false_r.
  - apply Nat.eqb_neq in E0.
    pose proof (numeral_head n c s E0 En) as Hzero.
    apply Ascii.eqb_neq in Hzero. rewrite Ascii.eqb_sym in Hzero.
    now rewrite Hzero.
Qed.

(** [parseInt] reads a numeral back, whatever white space comes before it
    and whatever text that cannot continue it comes after. *)
Lemma parseInt_numeral (n : nat) (spaces tail : string) :
  all_chars is_ascii_space spaces = true ->
  ends_number n tail = true ->
  parseInt (spaces ++ numeral n ++ tail) = Some (Z.of_nat n).
Proof.
  intros Hspaces Htail.
  destruct (numeral_digits n) as [Hdigits Hne].
  unfold parseInt. rewrite (trimStart_spaces _ _ Hspaces).
  assert (Htrim : trimStart (numeral n ++ tail) = numeral n ++ tail).
  { destruct (numeral n) as [|c s] eqn:E; [congruence|].
    cbn [all_chars] in Hdigits. apply andb_true_iff in Hdigits as [Hc _].
    cbn [append]. now apply trimStart_solid, digit_is_solid. }
  rewrite Htrim.
  destruct (no_prefix _ _ Htail) as (Hminus & Hplus & Hx & HX).
  rewrite Hminus, Hplus. cbn [orb]. rewrite Hx, HX. cbn [orb].
  rewrite (digits_first _ Hdigits Hne).
  unfold numeral. rewrite digits_numeral.
  rewrite (digits_stop _ _ (ends_number_stop _ _ Htail)).
  now rewrite DecimalNat.Unsigned.of_to.
Qed.

(** ** The prompt and its validators *)

Lemma menuIndex_of_parseInt (answer : string) (k size : nat) :
  parseInt answer = Some (Z.of_nat k) ->
  menuIndex answer size
  = if ((1 <=? k) && (k <=? size))%nat then Some (k - 1) else None.
Proof.
  intros Hparse. unfold menuIndex. rewrite Hparse.
  destruct ((1 <=? k) && (k <=? size))%nat eqn:Hk.
  - apply andb_true_iff in Hk as [Hlo Hhi]. apply Nat.leb_le in Hlo, Hhi.
    assert (E1 : (Z.of_nat k - 1 <? 0)%Z = false) by (apply Z.ltb_ge; lia).
    assert (E2 : (Z.of_nat size <=? Z.of_nat k - 1)%Z = false)
      by (apply Z.leb_gt; lia).
    rewrite E1, E2. cbn [orb]. f_equal. lia.
  - apply andb_false_iff in Hk as [Hk|Hk].
    + apply Nat.leb_gt in Hk.
      assert (E1 : (Z.of_nat k - 1 <? 0)%Z = true) by (apply Z.ltb_lt; lia).
      now rewrite E1.
    + apply Nat.leb_gt in Hk.
      assert (E2 : (Z.of_nat size <=? Z.of_nat k - 1)%Z = true)
        by (apply Z.leb_le; lia).
      rewrite E2. now rewrite orb_true_r.
Qed.

Lemma menuIndex_numeral (k size : nat) (spaces tail : string) :
  all_chars is_ascii_space spaces = true ->
  ends_number k tail = true ->
  menuIndex (spaces ++ numeral k ++ tail) size
  = if ((1 <=? k) && (k <=? size))%nat then Some (k - 1) else None.
Proof.
  intros Hs Ht. apply menuIndex_of_parseInt. now apply parseInt_numeral.
Qed.

Lemma menuIndex_bound (answer : string) (size index : nat) :
  menuIndex answer size = Some index -> index < size.
Proof.
  unfold menuIndex. destruct (parseInt answer) as [n|]; [|discriminate].
  destruct ((n - 1 <? 0)%Z || (Z.of_nat size <=? n - 1)%Z) eqn:Hout;
    [discriminate|].
  apply orb_false_iff in Hout as [Hlo Hhi].
  apply Z.ltb_ge in Hlo. apply Z.leb_gt in Hhi.
  intros E. inversion E. lia.
Qed.

Section Prompt.

Context {O A : Type}.
Variable question : string.
Variable options : O.
Variable validator : string -> O -> result exn (validation A).

Lemma promptSelection_Answered (answers unread : list string) (value : A) :
  promptSelection question options validator answers = Answered value unread ->
  exists before accepted,
    answers = (before ++ accepted :: unread)%list
    /\ Forall (rejected validator options) before
    /\ validator accepted options = Ok (Valid value).
Proof.
  revert unread value. induction answers as [|answer later IH];
    intros unread value; cbn [promptSelection]; [discriminate|].
  destruct (validator answer options) as [[v|m]|e] eqn:Ev.
  - intros E. inversion E; subst. exists [], answer. auto.
  - intros E. destruct (IH _ _ E) as (before & accepted & -> & Hrej & Hok).
    exists (answer :: before), accepted. split; [reflexivity|].
    split; [|assumption]. constructor; [|assumption]. now exists m.
  - discriminate.
Qed.

Lemma promptSelection_skips (before later : list string) :
  Forall (rejected validator options) before ->
  promptSelection question options validator (before ++ later)
  = promptSelection question options validator later.
Proof.
  intros Hrej. induction Hrej as [|answer before [m Hm] _ IH];
    cbn [app promptSelection]; [reflexivity|]. now rewrite Hm.
Qed.

(** X15.  [promptSelection] settles with the value of the first answer
    the validator accepts, having asked again after each answer it turned
    down and leaving the later answers unread; if the validator turns every
    answer down, the prompt never settles. *)
Theorem promptSelection_first_valid (answers unread : list string) (value : A) :
  (promptSelection question options validator answers = Answered value unread
   <-> exists before accepted,
         answers = (before ++ accepted :: unread)%list
         /\ Forall (rejected validator options) before
         /\ validator accepted options = Ok (Valid value))
  /\ (Forall (rejected validator options) answers ->
      promptSelection question options validator answers = Pending).
Proof.
  split; [split|].
  - apply promptSelection_Answered.
  - intros (before & accepted & -> & Hrej & Hok).
    rewrite (promptSelection_skips _ _ Hrej). cbn [promptSelection].
    now rewrite Hok.
  - intros Hrej. rewrite <- (app_nil_r answers).
    now rewrite (promptSelection_skips _ _ Hrej).
Qed.

End Prompt.

(** X16.  Answering the profile menu with the number k, with or
    without white space before it and whatever follows it that cannot
    continue the numeral, selects the k-th profile when k is between 1 and
    the number of profiles, and is turned down otherwise.  What cannot
    continue a numeral is anything but a further digit and, after the
    numeral 0, the letter x: the answer 0x followed by a digit is read as a
    hexadecimal number and selects the profile of that number. *)
Theorem profileValidator_by_number
  (profiles : list string) (k : nat) (spaces tail : string) :
  all_chars is_ascii_space spaces = true ->
  (ends_number k tail = true ->
   (1 <= k <= List.length profiles ->
    profileValidator (spaces ++ numeral k ++ tail) profiles
    = Ok (Valid (nth (k - 1) profiles "")))
   /\ (k = 0 \/ List.length profiles < k ->
       profileValidator (spaces ++ numeral k ++ tail) profiles
       = Ok (Invalid "Invalid profile number. Please try again.")))
  /\ (1 <= k <= 9 -> k <= List.length profiles ->
      ends_number 0 ("x" ++ numeral k) = false
      /\ profileValidator (spaces ++ numeral 0 ++ "x" ++ numeral k) profiles
         = Ok (Valid (nth (k - 1) profiles ""))).
Proof.
  intros Hs. split.
  - intros Ht. unfold profileValidator.
    rewrite (menuIndex_numeral _ _ _ _ Hs Ht). split.
    + intros [Hlo Hhi].
      apply Nat.leb_le in Hlo, Hhi. now rewrite Hlo, Hhi.
    + intros [-> | Hk]; [reflexivity|].
      apply Nat.leb_gt in Hk. rewrite Hk. now rewrite andb_false_r.
  - intros [Hlo Hhi] Hlen. split; [reflexivity|].
    assert (Hparse : parseInt (spaces ++ numeral 0 ++ "x" ++ numeral k)
                     = Some (Z.of_nat k)).
    { unfold parseInt. rewrite (trimStart_spaces _ _ Hs).
      assert (Hk : In k [1; 2; 3; 4; 5; 6; 7; 8; 9]) by (cbn; lia).
      cbn [In] in Hk.
      destruct Hk as [<-|[<-|[<-|[<-|[<-|[<-|[<-|[<-|[<-|[]]]]]]]]]];
        reflexivity. }
    unfold profileValidator. rewrite (menuIndex_of_parseInt _ k _ Hparse).
    apply Nat.leb_le in Hlo, Hlen. now rewrite Hlo, Hlen.
Qed.

(** X17.  Whatever the operator types, the profile the prompt settles
    with is one of the profiles shown, and the profile validator never
    throws. *)
Theorem profile_selection_listed
  (question : string) (profiles answers unread : list string)
  (selected : string) :
  (promptSelection question profiles profileValidator answers
   = Answered selected unread -> In selected profiles)
  /\ (forall e,
         promptSelection question profiles profileValidator answers
         <> Crashed e).
Proof.
  split.
  - intros E.
    apply promptSelection_Answered in E
      as (before & accepted & _ & _ & Hok).
    unfold profileValidator in Hok.
    destruct (menuIndex accepted (List.length profiles)) as [index|] eqn:Ei;
      [|discriminate].
    inversion Hok; subst selected.
    apply nth_In. eapply menuIndex_bound. exact Ei.
  - intros e. induction answers as [|answer later IH];
      cbn [promptSelection]; [discriminate|].
    unfold profileValidator at 1.
    destruct (menuIndex answer (List.length profiles)); [discriminate|].
    exact IH.
Qed.

(** X18.  The finding type the prompt settles with is '1', '2' or
    '3' exactly as typed (no white space is skipped here), so Finding
    Retrieval is never reached with a type it rejects, and the report
    always has a label. *)
Theorem findingType_selection
  (question : string) (answers unread : list string) (findingType : string) :
  (promptSelection question tt findingTypeValidator answers
   = Answered findingType unread ->
   In findingType ["1"; "2"; "3"]
   /\ (exists commands, filterCommands findingType = Ok commands)
   /\ (exists label, typeLabel findingType = Some label))
  /\ (forall answer,
         ~ In answer ["1"; "2"; "3"] ->
         findingTypeValidator answer tt
         = Ok (Invalid "Please enter 1, 2, or 3.")).
Proof.
  split.
  - intros E.
    apply promptSelection_Answered in E as (before & accepted & _ & _ & Hok).
    unfold findingTypeValidator in Hok.
    destruct (String.eqb accepted "1") eqn:E1;
      [|destruct (String.eqb accepted "2") eqn:E2;
        [|destruct (String.eqb accepted "3") eqn:E3]];
      cbn [orb] in Hok; inversion Hok; subst findingType.
    + apply String.eqb_eq in E1. subst accepted.
      repeat split; cbn; eauto.
    + apply String.eqb_eq in E2. subst accepted.
      repeat split; cbn; eauto.
    + apply String.eqb_eq in E3. subst accepted.
      repeat split; cbn; eauto.
  - intros answer Hout. unfold findingTypeValidator.
    assert (E1 : String.eqb answer "1" = false)
      by (apply String.eqb_neq; intros ->; apply Hout; cbn; auto).
    assert (E2 : String.eqb answer "2" = false)
      by (apply String.eqb_neq; intros ->; apply Hout; cbn; auto).
    assert (E3 : String.eqb answer "3" = false)
      by (apply String.eqb_neq; intros ->; apply Hout; cbn; auto).
    now rewrite E1, E2, E3.
Qed.

(** ** The region menu *)

Lemma before_first_app (c : ascii) (s rest : string) :
  includes s (str1 c) = false ->
  before_first c (s ++ String c rest) = s.
Proof.
  induction s as [|a s IH]; cbn [append before_first].
  - now rewrite Ascii.eqb_refl.
  - rewrite includes_cons_char. intros Hno.
    apply orb_false_iff in Hno as [Hc Hno].
    rewrite Ascii.eqb_sym, Hc. now rewrite IH.
Qed.

Lemma before_first_cut (c : ascii) (s rest : string) :
  before_first c (s ++ String c rest) = before_first c s.
Proof.
  induction s as [|a s IH]; cbn [append before_first].
  - now rewrite Ascii.eqb_refl.
  - destruct (Ascii.eqb a c); [reflexivity | now rewrite IH].
Qed.

Lemma in_split_first (d : string) (names : list string) :
  In d names ->
  exists before after, names = (before ++ d :: after)%list /\ ~ In d before.
Proof.
  induction names as [|a names IH]; [contradiction|].
  destruct (string_dec a d) as [-> | Hne].
  - intros _. exists [], names. split; [reflexivity | intros []].
  - intros [Heq | Hin]; [contradiction|].
    destruct (IH Hin) as (before & after & -> & Hnot).
    exists (a :: before), after. split; [reflexivity|].
    intros [Heq | Hin']; [contradiction | now apply Hnot].
Qed.

Section RegionMenu.

Context `{JsHost}.

Lemma existsb_is_string (d : string) (names : list string) :
  existsb (is_string d) (map VStr names) = true <-> In d names.
Proof.
  rewrite existsb_exists. split.
  - intros (v & Hv & Ev). apply in_map_iff in Hv as (name & <- & Hname).
    cbn in Ev. apply String.eqb_eq in Ev. now subst.
  - intros Hin. exists (VStr d). split; [now apply in_map|].
    cbn. apply String.eqb_refl.
Qed.

Lemma remove_first_split (d : string) (before after : list string) :
  ~ In d before ->
  remove_first d (map VStr (before ++ d :: after))
  = map VStr (before ++ after).
Proof.
  induction before as [|a before IH]; intros Hnot; cbn.
  - now rewrite String.eqb_refl.
  - assert (Ea : String.eqb a d = false)
      by (apply String.eqb_neq; intros ->; apply Hnot; now left).
    rewrite Ea. f_equal. apply IH. intros Hin. apply Hnot. now right.
Qed.

Lemma to_string_names (names : list string) :
  mapM to_string (map VStr names) = Ok names.
Proof.
  induction names as [|name names IH]; [reflexivity|].
  cbn [map mapM to_string bind]. now rewrite IH.
Qed.

(** X19.  When the default region is among the region names the CLI
    listed, the menu shows it first with the label " (default)", followed by
    the other names in their order, and answering 1 selects what stands
    before the first space of that entry: the default region itself when
    its name holds no space, and otherwise only the part of the name
    before its first space.  When the default region is not listed, or
    there is none, the menu is the list as it came. *)
Theorem regionMenu_of_names (names : list string) (d : string) :
  (d <> "" -> In d names ->
   exists before after,
     names = (before ++ d :: after)%list
     /\ ~ In d before
     /\ regionMenu (Some d) (VArr (map VStr names))
        = Ok (VStr (d ++ " (default)") :: map VStr (before ++ after))
     /\ regionValidator "1"
          (VStr (d ++ " (default)") :: map VStr (before ++ after))
        = Ok (Valid (VStr (before_first " " d)))
     /\ (includes d " " = false -> before_first " " d = d))
  /\ (~ In d names ->
      regionMenu (Some d) (VArr (map VStr names)) = Ok (map VStr names))
  /\ regionMenu None (VArr (map VStr names)) = Ok (map VStr names).
Proof.
  split; [|split].
  - intros Hd Hin.
    destruct (in_split_first _ _ Hin) as (before & after & Hnames & Hnot).
    exists before, after. split; [assumption|]. split; [assumption|].
    split; [|split].
    + unfold regionMenu. apply String.eqb_neq in Hd. rewrite Hd.
      rewrite (proj2 (existsb_is_string d names) Hin). cbn [negb andb].
      rewrite Hnames, (remove_first_split _ _ _ Hnot).
      change (VStr (d ++ defaultLabel) :: map VStr (before ++ after))
        with (map VStr ((d ++ defaultLabel) :: before ++ after)).
      now rewrite to_string_names.
    + unfold regionValidator.
      change "1" with ("" ++ numeral 1 ++ "").
      rewrite (menuIndex_numeral 1 _ "" "" eq_refl eq_refl).
      cbn [List.length Nat.leb andb Nat.sub nth js_includes bind].
      unfold defaultLabel.
      rewrite (includes_app_r d " (default)" " (default)" eq_refl).
      cbn [first_word bind].
      change (d ++ " (default)") with (d ++ String " " "(default)").
      now rewrite before_first_cut.
    + intros Hspace.
      rewrite <- (before_first_cut " " d "").
      now apply before_first_app.
  - intros Hnot. unfold regionMenu.
    destruct (existsb (is_string d) (map VStr names)) eqn:E.
    + apply existsb_is_string in E. contradiction.
    + rewrite andb_false_r. now rewrite to_string_names.
  - unfold regionMenu. now rewrite to_string_names.
Qed.

(** X20.  Answering the region menu with the number of an entry selects
    that entry as it stands when it is a string without the label
    " (default)"; a string with the label is cut at its first space; an
    entry that is neither a string nor an array makes the validator throw a
    [TypeError], which the prompt does not catch. *)
Theorem regionValidator_entry
  (menu : list value) (k : nat) (question : string) (later : list string) :
  1 <= k <= List.length menu ->
  (forall s,
      nth (k - 1) menu VUndefined = VStr s ->
      regionValidator (numeral k) menu
      = Ok (Valid (VStr (if includes s " (default)"
                         then before_first " " s else s))))
  /\ (no_text (nth (k - 1) menu VUndefined) ->
      regionValidator (numeral k) menu = Throw TypeError
      /\ promptSelection question menu regionValidator (numeral k :: later)
         = Crashed TypeError).
Proof.
  intros [Hlo Hhi].
  assert (Hindex : menuIndex (numeral k) (List.length menu) = Some (k - 1)).
  { change (numeral k) with ("" ++ numeral k).
    rewrite <- (string_app_nil_r (numeral k)).
    rewrite (menuIndex_numeral k _ "" "" eq_refl eq_refl).
    apply Nat.leb_le in Hlo, Hhi. now rewrite Hlo, Hhi. }
  split.
  - intros s Hs. unfold regionValidator. rewrite Hindex, Hs.
    cbn [js_includes bind]. unfold defaultLabel.
    now destruct (includes s " (default)").
  - intros Hno.
    assert (Hthrow : regionValidator (numeral k) menu = Throw TypeError).
    { unfold regionValidator. rewrite Hindex.
      destruct (nth (k - 1) menu VUndefined); cbn in Hno; try contradiction;
        reflexivity. }
    split; [assumption|]. cbn [promptSelection]. now rewrite Hthrow.
Qed.

End RegionMenu.

(** ** The default region *)

Lemma trimStart_all_spaces (spaces : string) :
  all_chars is_ascii_space spaces = true -> trimStart spaces = "".
Proof.
  intros Hs. rewrite <- (string_app_nil_r spaces).
  now rewrite (trimStart_spaces _ "" Hs).
Qed.

Lemma trimEnd_all_spaces (spaces : string) :
  all_chars is_ascii_space spaces = true -> trimEnd spaces = "".
Proof.
  destruct spaces as [|c spaces]; [reflexivity|]. intros Hs.
  cbn [trimEnd]. now rewrite (trimStart_all_spaces _ Hs).
Qed.

Lemma trimEnd_solid (s spaces : string) :
  all_chars is_solid s = true ->
  all_chars is_ascii_space spaces = true ->
  trimEnd (s ++ spaces) = s.
Proof.
  intros Hs Hspaces. induction s as [|c s IH].
  - now apply trimEnd_all_spaces.
  - cbn [all_chars] in Hs. apply andb_true_iff in Hs as [Hc Hs].
    cbn [append trimEnd]. rewrite (trimStart_solid _ _ Hc).
    cbn [String.eqb]. now rewrite (IH Hs).
Qed.

(** [trim] strips the white space around a word. *)
Lemma trim_word (before word after : string) :
  all_chars is_ascii_space before = true ->
  all_chars is_solid word = true -> word <> "" ->
  all_chars is_ascii_space after = true ->
  trim (before ++ word ++ after) = word.
Proof.
  intros Hb Hw Hne Ha. unfold trim. rewrite (trimStart_spaces _ _ Hb).
  destruct word as [|c word]; [congruence|].
  cbn [all_chars] in Hw. pose proof Hw as Hw'.
  apply andb_true_iff in Hw as [Hc _].
  cbn [append]. rewrite (trimStart_solid _ _ Hc).
  now apply (trimEnd_solid (String c word)).
Qed.

Section DefaultRegion.

Context `{JsHost}.

Lemma configuredRegion_result (profile : string) (w : World) :
  fst (configuredRegion profile w) <> Some ""
  /\ issued (snd (configuredRegion profile w))
     = (issued w ++ [configureCommand profile])%list.
Proof.
  unfold configuredRegion, exec, issued.
  destruct (exec_error _); cbn [fst snd history];
    [split; [discriminate | now rewrite map_app]|].
  destruct (String.eqb (trim _) "") eqn:E; cbn [fst snd history].
  - split; [discriminate | now rewrite map_app].
  - apply String.eqb_neq in E. split; [congruence | now rewrite map_app].
Qed.

(** X21.  A non-empty AWS_REGION is the default region, and then
    no command is run; otherwise exactly one command, aws configure get
    region for the profile, is run.  In no case is the default region the
    empty string. *)
Theorem getDefaultRegion_result
  (AWS_REGION : option string) (profile : string) (w : World) :
  fst (getDefaultRegion AWS_REGION profile w) <> Some ""
  /\ (forall region,
         AWS_REGION = Some region -> region <> "" ->
         getDefaultRegion AWS_REGION profile w = (Some region, w))
  /\ (unsetOrEmpty AWS_REGION ->
      issued (snd (getDefaultRegion AWS_REGION profile w))
      = (issued w
         ++ [("aws configure get region "
              ++ optionArg "--profile" profile)%string])%list).
Proof.
  unfold getDefaultRegion.
  destruct (configuredRegion_result profile w) as [Hne Hissued].
  split; [|split].
  - destruct AWS_REGION as [region|]; [|assumption].
    destruct (String.eqb region "") eqn:E; [assumption|].
    apply String.eqb_neq in E. cbn [fst]. congruence.
  - intros region -> Hregion. apply String.eqb_neq in Hregion.
    now rewrite Hregion.
  - intros [-> | ->]; exact Hissued.
Qed.

(** X22.  Without AWS_REGION, the default region is the word the CLI
    printed, stripped of the white space around it, such as the line feed
    that ends the output; output that is white space only, or a failed
    command, gives no default region. *)
Theorem getDefaultRegion_trims
  (AWS_REGION : option string) (profile : string) (w : World) :
  unsetOrEmpty AWS_REGION ->
  let out := fst (exec {| command := configureCommand profile;
                          maxBuffer := None |} w) in
  (forall before region after,
      exec_error out = None ->
      stdout out = before ++ region ++ after ->
      all_chars is_ascii_space before = true ->
      all_chars is_solid region = true -> region <> "" ->
      all_chars is_ascii_space after = true ->
      fst (getDefaultRegion AWS_REGION profile w) = Some region)
  /\ (exec_error out = None ->
      all_chars is_ascii_space (stdout out) = true ->
      fst (getDefaultRegion AWS_REGION profile w) = None)
  /\ (exec_error out <> None ->
      fst (getDefaultRegion AWS_REGION profile w) = None).
Proof.
  intros Henv out.
  assert (E : getDefaultRegion AWS_REGION profile w
              = configuredRegion profile w)
    by (destruct Henv as [-> | ->]; reflexivity).
  rewrite E. subst out. unfold configuredRegion, exec. cbn [fst].
  split; [|split].
  - intros before region after -> -> Hb Hr Hne Ha.
    rewrite (trim_word _ _ _ Hb Hr Hne Ha).
    apply String.eqb_neq in Hne. now rewrite Hne.
  - intros -> Hspaces. unfold trim.
    now rewrite (trimStart_all_spaces _ Hspaces).
  - intros Herr. destruct (exec_error _); [reflexivity | congruence].
Qed.

End DefaultRegion.

(** ** The report *)

Lemma includes_app_char (a b : string) (c : ascii) :
  includes (a ++ b) (str1 c) = includes a (str1 c) || includes b (str1 c).
Proof.
  induction a as [|x a IH]; [reflexivity|].
  cbn [append]. rewrite !includes_cons_char, IH. now rewrite orb_assoc.
Qed.

Lemma replace_char_app (c : ascii) (by_ a b : string) :
  replace_char c by_ (a ++ b) = replace_char c by_ a ++ replace_char c by_ b.
Proof.
  induction a as [|x a IH]; [reflexivity|].
  cbn [append replace_char]. now rewrite IH, string_app_assoc.
Qed.

Lemma replace_char_absent (c : ascii) (by_ s : string) :
  includes s (str1 c) = false -> replace_char c by_ s = s.
Proof.
  induction s as [|x s IH]; [reflexivity|].
  rewrite includes_cons_char. intros Hno.
  apply orb_false_iff in Hno as [Hx Hno].
  cbn [replace_char]. rewrite Ascii.eqb_sym, Hx. cbn. now rewrite IH.
Qed.

Lemma before_first_keeps (c x : ascii) (s : string) :
  includes s (str1 x) = false ->
  includes (before_first c s) (str1 x) = false.
Proof.
  induction s as [|a s IH]; [reflexivity|].
  rewrite includes_cons_char. intros Hno.
  apply orb_false_iff in Hno as [Hx Hno].
  cbn [before_first]. destruct (Ascii.eqb a c); [reflexivity|].
  rewrite includes_cons_char, Hx. now apply IH.
Qed.

Lemma timestamp_no_colon (iso : string) : includes (timestamp iso) ":" = false.
Proof.
  unfold timestamp. apply (before_first_keeps "." ":").
  now apply (includes_replace_target ":" "-").
Qed.

(** X23.  The report of a finding type is named
    aws_inspector_<label>_findings_<time>.csv, where the time is the ISO
    text of the clock up to the seconds with each colon turned into a
    hyphen; whatever the clock reads, the name holds no colon. *)
Theorem fileName_of_clock (findingType label : string) :
  typeLabel findingType = Some label ->
  (forall iso, includes (fileName label iso) ":" = false)
  /\ (forall date hours minutes seconds rest,
         includes date ":" = false -> includes date "." = false ->
         includes hours ":" = false -> includes hours "." = false ->
         includes minutes ":" = false -> includes minutes "." = false ->
         includes seconds ":" = false -> includes seconds "." = false ->
         fileName label
           (date ++ "T" ++ hours ++ ":" ++ minutes ++ ":" ++ seconds
            ++ "." ++ rest)
         = "aws_inspector_" ++ label ++ "_findings_"
           ++ date ++ "T" ++ hours ++ "-" ++ minutes ++ "-" ++ seconds
           ++ ".csv").
Proof.
  intros Hlabel.
  assert (Hl : includes label ":" = false).
  { unfold typeLabel in Hlabel.
    destruct (String.eqb findingType "1");
      [|destruct (String.eqb findingType "2");
        [|destruct (String.eqb findingType "3")]];
      inversion Hlabel; reflexivity. }
  split.
  - intros iso. unfold fileName. change ":" with (str1 ":").
    rewrite !includes_app_char.
    change (str1 ":") with ":". rewrite Hl, timestamp_no_colon. reflexivity.
  - intros date hours minutes seconds rest Hd Hd' Hh Hh' Hm Hm' Hs Hs'.
    assert (Htime : timestamp (date ++ "T" ++ hours ++ ":" ++ minutes ++ ":"
                               ++ seconds ++ "." ++ rest)
                    = date ++ "T" ++ hours ++ "-" ++ minutes ++ "-" ++ seconds).
    { unfold timestamp.
      assert (R : forall x y, replace_char ":" "-" (x ++ y)
                              = replace_char ":" "-" x ++ replace_char ":" "-" y)
        by (intros; apply replace_char_app).
      rewrite (R date). change ("T" ++ hours ++ ":" ++ minutes ++ ":"
                                ++ seconds ++ "." ++ rest)
        with (String "T" (hours ++ String ":" (minutes ++ String ":"
                (seconds ++ String "." rest)))).
      change (replace_char ":" "-"
                (String "T" (hours ++ String ":" (minutes ++ String ":"
                   (seconds ++ String "." rest)))))
        with (String "T" (replace_char ":" "-"
                (hours ++ String ":" (minutes ++ String ":"
                   (seconds ++ String "." rest))))).
      rewrite (R hours).
      change (replace_char ":" "-"
                (String ":" (minutes ++ String ":" (seconds ++ String "." rest))))
        with (String "-" (replace_char ":" "-"
                (minutes ++ String ":" (seconds ++ String "." rest)))).
      rewrite (R minutes).
      change (replace_char ":" "-" (String ":" (seconds ++ String "." rest)))
        with (String "-" (replace_char ":" "-" (seconds ++ String "." rest))).
      rewrite (R seconds).
      change (replace_char ":" "-" (String "." rest))
        with (String "." (replace_char ":" "-" rest)).
      rewrite (replace_char_absent ":" "-" date Hd),
              (replace_char_absent ":" "-" hours Hh),
              (replace_char_absent ":" "-" minutes Hm),
              (replace_char_absent ":" "-" seconds Hs).
      replace (date ++ String "T" (hours ++ String "-" (minutes ++ String "-"
                 (seconds ++ String "." (replace_char ":" "-" rest)))))
        with ((date ++ "T" ++ hours ++ "-" ++ minutes ++ "-" ++ seconds)
              ++ String "." (replace_char ":" "-" rest))
        by (now rewrite !string_app_assoc).
      apply before_first_app.
      change "." with (str1 ".") in *.
      rewrite !includes_app_char, Hd', Hh', Hm', Hs'. reflexivity. }
    unfold fileName. rewrite Htime. now rewrite !string_app_assoc.
Qed.

Section Report.

Context `{JsHost}.

Lemma filterCommands_label (findingType : string) (commands : string * string) :
  filterCommands findingType = Ok commands ->
  exists label, typeLabel findingType = Some label.
Proof.
  unfold filterCommands, typeLabel.
  destruct (String.eqb findingType "1"); [eauto|].
  destruct (String.eqb findingType "2"); [eauto|].
  destruct (String.eqb findingType "3"); [eauto|discriminate].
Qed.

Lemma convertToCsv_not_empty (findings : list value) (text : string) :
  convertToCsv findings = Ok (Some text) -> text <> "" /\ findings <> [].
Proof.
  intros E. split.
  - destruct (convertToCsv_records _ _ E)
      as (rows & records & _ & _ & _ & _ & Hall).
    intros ->. inversion Hall as [|record others Hrecord _ Hread].
    discriminate Hrecord.
  - intros ->. discriminate E.
Qed.

(** X24.  The last step of main writes a file exactly when the
    retrieval returned at least one finding and every finding could be
    serialized: the file is named after the finding type and the clock,
    and its text reads back as the header and one record per finding.  No
    finding writes nothing; a failed retrieval, or findings the serializer
    throws on, write nothing either and hand the error to the handler of
    main. *)
Theorem retrieveAndExport_writes
  (profile region findingType iso : string) (w : World) :
  (forall name text w',
      retrieveAndExport profile region findingType iso w
      = (Ok (Some (name, text)), w') ->
      exists found label,
        getInspectorFindings profile region findingType w = (Ok found, w')
        /\ found <> []
        /\ typeLabel findingType = Some label
        /\ name = fileName label iso
        /\ convertToCsv found = Ok (Some text)
        /\ List.length (parseCsv text) = S (List.length found))
  /\ (forall found text w',
         getInspectorFindings profile region findingType w = (Ok found, w') ->
         convertToCsv found = Ok (Some text) ->
         exists label,
           typeLabel findingType = Some label
           /\ retrieveAndExport profile region findingType iso w
              = (Ok (Some (fileName label iso, text)), w'))
  /\ (forall w',
         getInspectorFindings profile region findingType w = (Ok [], w') ->
         retrieveAndExport profile region findingType iso w = (Ok None, w'))
  /\ (forall e w',
         getInspectorFindings profile region findingType w = (Throw e, w') ->
         retrieveAndExport profile region findingType iso w = (Throw e, w'))
  /\ (forall found e w',
         getInspectorFindings profile region findingType w = (Ok found, w') ->
         convertToCsv found = Throw e ->
         retrieveAndExport profile region findingType iso w = (Throw e, w')).
Proof.
  unfold retrieveAndExport. split; [|split; [|split; [|split]]].
  - intros name text w'.
    destruct (getInspectorFindings profile region findingType w)
      as [[found|e] w1] eqn:Eret; [|discriminate].
    intros E. inversion E as [[Eexport Ew]]. subst w1.
    unfold exportFindings in Eexport.
    destruct found as [|finding found]; [discriminate|].
    destruct (convertToCsv (finding :: found)) as [[csv|]|e] eqn:Ecsv;
      cbn [bind] in Eexport; try discriminate.
    destruct (typeLabel findingType) as [label|] eqn:Elabel; [|discriminate].
    destruct (String.eqb csv ""); [discriminate|].
    inversion Eexport; subst name text.
    exists (finding :: found), label.
    destruct (convertToCsv_records _ _ Ecsv)
      as (rows & records & _ & _ & _ & Hlen & _).
    repeat split; auto. discriminate.
  - intros found text w' Eret Ecsv.
    destruct (getInspectorFindings_Ok _ _ _ _ _ _ Eret)
      as (critical & high & _ & _ & _ & _ & _ & Hcmds & _).
    destruct (filterCommands_label _ _ Hcmds) as [label Hlabel].
    exists label. split; [assumption|]. rewrite Eret.
    destruct (convertToCsv_not_empty _ _ Ecsv) as [Htext Hfound].
    unfold exportFindings. destruct found as [|finding found]; [congruence|].
    rewrite Ecsv, Hlabel. cbn [bind].
    apply String.eqb_neq in Htext. now rewrite Htext.
  - intros w' ->. reflexivity.
  - intros e w' ->. reflexivity.
  - intros found e w' -> Ecsv. unfold exportFindings.
    destruct found as [|finding found]; [discriminate Ecsv|].
    now rewrite Ecsv.
Qed.

End Report.

(** ** More of the program on concrete inputs *)

Import Cases.

Lemma convertToCsv_reads_back_witness :
  match convertToCsv [criticalOne; withText twoLineText] with
  | Ok (Some text) => List.length (parseCsv text) = 3
  | _ => False
  end
  /\ convertToCsv [criticalOne; unprintableFinding] = Throw TypeError.
Proof.
  split.
  - destruct (convertToCsv [criticalOne; withText twoLineText])
      as [[text|]|e] eqn:E;
      [|vm_compute in E; discriminate E..].
    destruct (proj1 (convertToCsv_reads_back _) _ E)
      as (rows & records & _ & _ & _ & Hlen & _).
    exact Hlen.
  - eapply (proj1 (proj2 (convertToCsv_reads_back
                            [criticalOne; unprintableFinding]))).
    + discriminate.
    + reflexivity.
    + reflexivity.
Defined.

Lemma convertToCsv_one_bad_finding_witness :
  convertToCsv [bare; VNull; criticalOne] = Throw TypeError.
Proof.
  apply (convertToCsv_one_bad_finding [bare; VNull; criticalOne] VNull TypeError).
  - right. left. reflexivity.
  - reflexivity.
Defined.

Lemma plain_cells_witness :
  match csvCells cweFinding with
  | Ok cells => nth 1 cells "" = "HIGH" /\ nth 2 cells "" = "CVE-2024-0001"
  | Throw _ => False
  end
  /\ csvCells unprintableFinding = Throw TypeError.
Proof.
  split;
    [|exact (proj1 (proj2 (proj2 (plain_cells unprintableFinding)))
               ["awsAccountId"] TypeError (or_introl eq_refl) eq_refl)].
  destruct (csvCells cweFinding) as [cells|e] eqn:E;
    [|vm_compute in E; discriminate E].
  destruct (proj1 (plain_cells cweFinding) _ E) as (_ & H1 & H2 & _).
  split.
  - exact (f_equal (fun r => match r with Ok text => text | Throw _ => "" end)
             (eq_sym H1)).
  - exact (f_equal (fun r => match r with Ok text => text | Throw _ => "" end)
             (eq_sym H2)).
Defined.

Lemma cwe_cell_witness :
  match csvCells cweFinding with
  | Ok cells => nth 3 cells "" = lit "`CWE-79, CWE-89`"
  | Throw _ => False
  end
  /\ csvCells unprintableCwe = Throw TypeError.
Proof.
  split.
  - destruct (csvCells cweFinding) as [cells|e] eqn:E;
      [|vm_compute in E; discriminate E].
    destruct (proj1 (proj1 (cwe_cell cweFinding) _ E)
                [VStr "CWE-79"; VStr "CWE-89"] eq_refl ltac:(discriminate))
      as (texts & Htexts & ->).
    change (@Ok exn (list string) ["CWE-79"; "CWE-89"] = Ok texts) in Htexts.
    injection Htexts as <-. reflexivity.
  - apply (proj2 (cwe_cell unprintableCwe)
             [VStr "CWE-79"; VObj [("toString", VNull)]] TypeError).
    + reflexivity.
    + discriminate.
    + reflexivity.
Defined.

Lemma resource_cells_witness :
  match csvCells imageFinding with
  | Ok cells => nth 7 cells "" = "AWS_ECR_CONTAINER_IMAGE"
  | Throw _ => False
  end
  /\ match csvCells cweFinding with
     | Ok cells => skipn 9 cells = ["-"; "-"; "-"; "-"; "-"; "-"]
     | Throw _ => False
     end.
Proof.
  split.
  - destruct (csvCells imageFinding) as [cells|e] eqn:E;
      [|vm_compute in E; discriminate E].
    assert (Hlisted : resourcesListed imageFinding)
      by (left; eexists; reflexivity).
    destruct (resource_cells _ _ E Hlisted) as (Htype & _).
    exact (f_equal (fun r => match r with Ok text => text | Throw _ => "" end)
             (eq_sym Htype)).
  - destruct (csvCells cweFinding) as [cells|e] eqn:E;
      [|vm_compute in E; discriminate E].
    assert (Hlisted : resourcesListed cweFinding) by (right; reflexivity).
    destruct (resource_cells _ _ E Hlisted) as (_ & _ & Hnone & _).
    exact (Hnone eq_refl).
Defined.

Lemma getAwsProfiles_NoDup_witness :
  match getAwsProfiles homeOfAlice aliceDisk with
  | Ok found => NoDup found
  | Throw _ => False
  end.
Proof.
  destruct (getAwsProfiles homeOfAlice aliceDisk) as [found|e] eqn:E;
    [|vm_compute in E; discriminate E].
  exact (getAwsProfiles_NoDup _ _ _ E).
Defined.

Lemma getAwsProfiles_names_witness :
  includes "stage" "]" = false
  /\ includes credentialsText "[stage]" = false
  /\ includes configText "[profile stage]" = true.
Proof.
  assert (E : getAwsProfiles homeOfAlice aliceDisk = Ok ["dev"; "prod"; "stage"])
    by (vm_compute; reflexivity).
  destruct (getAwsProfiles_names _ _ _ "stage" E
              (or_intror (or_intror (or_introl eq_refl))))
    as (Hclose & _ & _ & _).
  split; [exact Hclose|]. split; vm_compute; reflexivity.
Defined.

Lemma getAwsProfiles_no_headers_witness :
  getAwsProfiles homeOfAlice plainDisk = Ok [].
Proof.
  apply (getAwsProfiles_no_headers homeOfAlice plainDisk "/home/alice").
  - split; [reflexivity|discriminate].
  - intros _. eexists. split; vm_compute; reflexivity.
  - intros _. eexists. split; vm_compute; reflexivity.
Defined.

Lemma getInspectorFindings_invalid_type_witness :
  getInspectorFindings "prod" "eu-west-1" "4" inspectorWorld
  = (Throw (Error "Invalid finding type"), inspectorWorld).
Proof.
  apply getInspectorFindings_invalid_type; discriminate.
Defined.

Lemma getInspectorFindings_first_failure_witness :
  fst (getInspectorFindings "prod" "eu-west-1" "2" offlineWorld)
  = Throw (Error "AWS CLI error: Command failed: Could not connect to the endpoint URL").
Proof.
  pose (commands := match filterCommands "2" with
                    | Ok found => found
                    | Throw _ => ("", "")
                    end).
  pose (w1 := snd (runAwsCommand (fst commands) "prod" "eu-west-1" offlineWorld)).
  assert (Ecmds : filterCommands "2" = Ok (fst commands, snd commands))
    by (vm_compute; reflexivity).
  assert (Erun : runAwsCommand (fst commands) "prod" "eu-west-1" offlineWorld
                 = (Throw "AWS CLI error: Command failed: Could not connect to the endpoint URL", w1))
    by (apply pair_of_fst; vm_compute; reflexivity).
  destruct (getInspectorFindings_first_failure
              "prod" "eu-west-1" "2" _ _ _ offlineWorld w1 Ecmds Erun)
    as [Hret _].
  now rewrite Hret.
Defined.

Lemma filterCommands_table_witness :
  exists before after,
    filterCommands "3"
    = Ok (before ++ "CRITICAL" ++ after, before ++ "HIGH" ++ after)
    /\ includes before (equalsFilter "findingStatus" "CLOSED") = true.
Proof.
  destruct (filterCommands_table "3" (or_intror (or_intror (or_introl eq_refl))))
    as (before & after & Hcmds & Hstatus & _).
  exists before, after. split; [exact Hcmds | exact Hstatus].
Defined.

Lemma regionMenu_needs_array_witness :
  fst (getAwsRegions "prod" answeringWorld) = Ok (VObj [])
  /\ regionMenu (Some "eu-west-1") (VObj []) = Throw TypeError.
Proof.
  assert (H1 : exec_error
                 (fst (exec {| command := regionsCommand "prod";
                               maxBuffer := None |} answeringWorld)) = None)
    by reflexivity.
  assert (H2 : JSON_parse
                 (stdout (fst (exec {| command := regionsCommand "prod";
                                       maxBuffer := None |} answeringWorld)))
               = inl (VObj []))
    by (vm_compute; reflexivity).
  assert (H3 : forall items, VObj [] <> VArr items) by discriminate.
  destruct (regionMenu_needs_array "prod" answeringWorld (VObj []) H1 H2 H3)
    as [Hregions Hmenu].
  split; [exact Hregions | exact (Hmenu (Some "eu-west-1"))].
Defined.

Lemma promptSelection_first_valid_witness :
  promptSelection "Select a profile (enter number): " threeProfiles
    profileValidator ["x"; "0"; "2"; "3"]
  = Answered "prod" ["3"].
Proof.
  apply (proj1 (promptSelection_first_valid
                  "Select a profile (enter number): " threeProfiles
                  profileValidator ["x"; "0"; "2"; "3"] ["3"] "prod")).
  exists ["x"; "0"], "2". split; [reflexivity|]. split.
  - repeat constructor; eexists; vm_compute; reflexivity.
  - vm_compute. reflexivity.
Defined.

Lemma profileValidator_by_number_witness :
  profileValidator " 2nd" threeProfiles = Ok (Valid "prod")
  /\ profileValidator "4" threeProfiles
     = Ok (Invalid "Invalid profile number. Please try again.")
  /\ profileValidator "0x2" threeProfiles = Ok (Valid "prod").
Proof.
  split; [|split].
  - apply (proj1 (proj1 (profileValidator_by_number threeProfiles 2 " " "nd"
                           eq_refl) eq_refl)).
    cbn. lia.
  - apply (proj2 (proj1 (profileValidator_by_number threeProfiles 4 "" ""
                           eq_refl) eq_refl)).
    right. cbn. lia.
  - apply (proj2 (proj2 (profileValidator_by_number threeProfiles 2 "" ""
                           eq_refl)
                    ltac:(lia) ltac:(cbn; lia))).
Defined.

Lemma profile_selection_listed_witness : In "prod" threeProfiles.
Proof.
  apply (proj1 (profile_selection_listed "?" threeProfiles ["9"; "2"] [] "prod")).
  vm_compute. reflexivity.
Defined.

Lemma findingType_selection_witness :
  exists commands, filterCommands "2" = Ok commands.
Proof.
  assert (E : promptSelection "?" tt findingTypeValidator [" 1"; "2"]
              = Answered "2" [])
    by (vm_compute; reflexivity).
  exact (proj1 (proj2 (proj1 (findingType_selection "?" [" 1"; "2"] [] "2") E))).
Defined.

Lemma regionMenu_of_names_witness :
  exists before after,
    regionNames = (before ++ "eu-west-1" :: after)%list
    /\ ~ In "eu-west-1" before
    /\ regionMenu (Some "eu-west-1") (VArr (map VStr regionNames))
       = Ok (VStr "eu-west-1 (default)" :: map VStr (before ++ after))
    /\ regionValidator "1"
         (VStr "eu-west-1 (default)" :: map VStr (before ++ after))
       = Ok (Valid (VStr "eu-west-1")).
Proof.
  destruct (proj1 (regionMenu_of_names regionNames "eu-west-1")
              ltac:(discriminate) (or_intror (or_introl eq_refl)))
    as (before & after & Hnames & Hnot & Hmenu & Hanswer & _).
  exists before, after.
  split; [exact Hnames|]. split; [exact Hnot|].
  split; [exact Hmenu | exact Hanswer].
Defined.

Lemma regionValidator_entry_witness :
  regionValidator "1" oddMenu = Ok (Valid (VStr "eu-west-1"))
  /\ regionValidator "3" oddMenu = Throw TypeError.
Proof.
  split.
  - apply (proj1 (regionValidator_entry oddMenu 1 "?" []
                    ltac:(cbn; lia)) "eu-west-1 (default)" eq_refl).
  - apply (proj2 (regionValidator_entry oddMenu 3 "?" [] ltac:(cbn; lia))).
    exact I.
Defined.

Lemma getDefaultRegion_result_witness :
  getDefaultRegion (Some "eu-west-1") "prod" offlineWorld
  = (Some "eu-west-1", offlineWorld).
Proof.
  apply (proj1 (proj2 (getDefaultRegion_result (Some "eu-west-1") "prod"
                         offlineWorld)) "eu-west-1" eq_refl).
  discriminate.
Defined.

Lemma getDefaultRegion_trims_witness :
  fst (getDefaultRegion None "prod" configuredWorld) = Some "eu-west-1".
Proof.
  apply (proj1 (getDefaultRegion_trims None "prod" configuredWorld
                  (or_introl eq_refl)) "" "eu-west-1" (str1 LF));
    try reflexivity.
  discriminate.
Defined.

Lemma fileName_of_clock_witness :
  fileName "all_active" clock
  = "aws_inspector_all_active_findings_2025-01-22T00-18-14.csv".
Proof.
  apply (proj2 (fileName_of_clock "2" "all_active" eq_refl)
           "2025-01-22" "00" "18" "14" "123Z");
    reflexivity.
Defined.

Lemma retrieveAndExport_writes_witness :
  match fst (retrieveAndExport "prod" "eu-west-1" "2" clock inspectorWorld) with
  | Ok (Some (name, text)) =>
      name = "aws_inspector_all_active_findings_2025-01-22T00-18-14.csv"
      /\ List.length (parseCsv text) = 3
  | _ => False
  end.
Proof.
  assert (Efound : fst (getInspectorFindings "prod" "eu-west-1" "2"
                          inspectorWorld)
                   = Ok [criticalOne; highOne])
    by (vm_compute; reflexivity).
  assert (Elabel : typeLabel "2" = Some "all_active") by reflexivity.
  destruct (retrieveAndExport "prod" "eu-west-1" "2" clock inspectorWorld)
    as [[[[name text]|]|e] w'] eqn:E; cbn [fst].
  - destruct (proj1 (retrieveAndExport_writes "prod" "eu-west-1" "2" clock
                       inspectorWorld) name text w' E)
      as (found & label & Hret & _ & Hlabel & Hname & _ & Hlen).
    rewrite Hret in Efound. cbn [fst] in Efound.
    injection Efound as ->. rewrite Elabel in Hlabel.
    injection Hlabel as <-. split; [|exact Hlen].
    rewrite Hname. vm_compute. reflexivity.
  - apply (f_equal fst) in E. cbn [fst] in E.
    vm_compute in E. discriminate E.
  - apply (f_equal fst) in E. cbn [fst] in E.
    vm_compute in E. discriminate E.
Defined.
